(** * ZKTeco attendance logger: device session, delivery client and
      failed-log store of [src/main.py], as a shallow embedding.

    The methods of [ZKTecoDevice] are state transformers over the device
    object, the file [failed_logs.json] and a trace of the effects they
    perform (log lines, sleeps, HTTP requests, driver calls, file writes).
    Python exceptions are an explicit result, with [try]/[except] as
    combinators.  The terminal driver ([zk]), the HTTP endpoint
    ([requests.post]), the wall clock and the [Attendance] class are not part
    of the program: they are the fields of the class [Externals], and every
    call of one of them advances a counter [tick] that indexes its answer.
    The general theorems hold for every such collaborator; the scenarios run
    on [double], which scripts the terminal and the endpoint around the
    [Attendance] class that [main.py] imports.

    The model is sequential: one method runs at a time (the threads and the
    per-device lock of the source are not represented). *)

From Stdlib Require Import ZArith String List Lia Permutation.
From stdpp Require Import base option list gmap strings fin_maps.

Open Scope string_scope.
Open Scope list_scope.

(** ** Python exceptions and results *)

Inductive PyExn :=
| JSONDecodeError      (* json.load on text that is not JSON *)
| RequestException     (* requests.exceptions.RequestException *)
| OSError              (* open() on a file that cannot be read *)
| TypeError            (* json.dump on an object it cannot encode; a bad constructor call *)
| AttributeError       (* a missing attribute or method *)
| ValueError           (* list.remove(x) when x is not in the list *)
| DriverError.         (* anything the zk driver raises *)

(** The two classes that an [except] clause of the source names. *)
Definition is_JSONDecodeError (e : PyExn) : bool :=
  match e with JSONDecodeError => true | _ => false end.
Definition is_RequestException (e : PyExn) : bool :=
  match e with RequestException => true | _ => false end.

Inductive Result (A : Type) :=
| Ret (a : A)
| Raise (e : PyExn).
Arguments Ret {A} a.
Arguments Raise {A} e.

(** ** Data *)

(** The connection object returned by [ZK.connect()]: an opaque handle. It is
    an ordinary object, hence true in a boolean context ([if self.conn]). *)
Definition Session := nat.

(** What [requests.post] gives back: a response with its status code and
    body, or a [RequestException]. *)
Inductive HttpResult :=
| Response (status_code : Z) (text : string)
| TransportError.

(** The [data] dictionary that [send_log_to_api] posts. *)
Record Payload := mkPayload {
  device_id : Z;
  user_id : string;
  timestamp : string;
  pstatus : Z
}.

(** One object yielded by the generator of [live_capture]. *)
Inductive Raw (A : Type) :=
| RNone
| RAttendance (a : A)
| ROther (repr : string).
Arguments RNone {A}.
Arguments RAttendance {A} a.
Arguments ROther {A} repr.

(** How a generator ends after the objects it yielded. *)
Inductive GenEnd := StopIteration | GenRaises.

(** The outcome of [self.conn.live_capture(new_timeout=10)]: the call
    raises, returns [None], or returns a generator.  A generator is given by
    the objects it yields before it stops or raises; one that never stops is
    not a value of this type: its pass stays in the [for] loop, which is
    described by [for_logs] on the objects taken so far. *)
Inductive Capture (A : Type) :=
| CaptureRaises
| CaptureNone
| CaptureGen (items : list (Raw A)) (fin : GenEnd).
Arguments CaptureRaises {A}.
Arguments CaptureNone {A}.
Arguments CaptureGen {A} items fin.

(** The collaborators outside of [main.py]. *)
Class Externals := {
  (** instances of [zk.attendance.Attendance] *)
  Attendance : Type;
  (** the JSON object stored under the key ["log"]; equality is Python's [==] *)
  Fields : Type;
  Fields_eq_dec :: EqDecision Fields;
  (** [(log.user_id, log.timestamp.strftime(...), log.status)], or [None]
      when evaluating one of them raises *)
  api_fields : Attendance → option (string * string * Z);
  (** the JSON object that [json.dump] writes for [log.__dict__], or [None]
      when the encoder raises [TypeError] *)
  dict_json : Attendance → option Fields;
  (** the constructor called with the keyword arguments [d] ([Attendance( ** d)]),
      or [None] when it raises *)
  Attendance_init : Fields → option Attendance;
  (** [ZK(ip, ...).connect()] at a given tick: a session, or [None] when it raises *)
  zk_connect : nat → string → option Session;
  zk_live_capture : nat → Session → Capture Attendance;
  (** [conn.disconnect()]: [true] when it returns, [false] when it raises *)
  zk_disconnect : nat → Session → bool;
  requests_post : nat → Payload → HttpResult;
  (** [datetime.now().strftime("%Y-%m-%d %H:%M:%S")] *)
  datetime_now : nat → string
}.

Section Logger.
Context `{Ext : Externals}.

(** An element of a device's list in [failed_logs.json]:
    [{"log_time": log_time, "log": log.__dict__}]. *)
Record FailedRecord := mkFailed {
  log_time : string;
  log : Fields
}.

#[export] Instance FailedRecord_eq_dec : EqDecision FailedRecord.
Proof. solve_decision. Defined.

(** The decoded content of [failed_logs.json]: device ip ↦ pending records. *)
Abbreviation Store := (gmap string (list FailedRecord)).

(** The file [failed_logs.json]. *)
Inductive FileState :=
| Absent                  (* os.path.exists is False *)
| Unreadable              (* exists, open(..., 'r') raises *)
| Malformed               (* exists, json.load raises JSONDecodeError *)
| Snapshot (s : Store).   (* exists, json.load returns s *)

(** An entry of [devices.json], the argument of [__init__]. *)
Record DeviceData := mkDeviceData {
  cfg_id : Z;
  cfg_ip : string;
  cfg_name : string;
  cfg_status : string;
  cfg_password : Z
}.

(** The device object. Of the attributes of the source, [zk] (the driver
    object, reached through [conn]), [lock] (it belongs to the threads) and
    [failed_logs_file] (the same path for every device) are left out. *)
Record ZKTecoDevice := mkDevice {
  id : Z;
  ip : string;
  name : string;
  status : string;
  password : Z;
  conn : option Session;
  device_logs : gmap string Attendance
}.

Inductive Level := INFO | WARNING | ERROR.

(** One constructor per [logging] call of the class. *)
Inductive LogMsg :=
| ConnectedTo (name ip : string)
| ConnectionError (name : string)
| UnknownLogType (repr : string)
| LiveLogError (name : string) (e : PyExn)
| SentToApi (p : Payload)
| SendFailed (code : Z) (text : string)
| SendError
| StoreFailed (e : PyExn)
| DecodeFailed
| ProcessingError (e : PyExn)
| DisconnectedFrom (name : string).

(** What a method does to the outside, in order. *)
Inductive Effect :=
| ELog (lvl : Level) (m : LogMsg)
| ESleep (seconds : nat)
| EPost (p : Payload) (r : HttpResult)
| EWrite (content : option Store)   (* open(..., 'w') and json.dump; None: the dump raised *)
| EConnect (r : option Session)
| ECapture (s : Session)
| EDisconnect (s : Session) (returned : bool).

Record State := mkState {
  self : ZKTecoDevice;
  file : FileState;
  tick : nat;
  trace : list Effect
}.

Definition M (A : Type) := State → Result A * State.

#[export] Instance M_ret : MRet M := λ A a σ, (Ret a, σ).
#[export] Instance M_bind : MBind M := λ A B f m σ,
  match m σ with
  | (Ret a, σ') => f a σ'
  | (Raise e, σ') => (Raise e, σ')
  end.

Definition raise {A} (e : PyExn) : M A := λ σ, (Raise e, σ).

(** [try: body except Exception as e: handler e] *)
Definition try_except {A} (body : M A) (handler : PyExn → M A) : M A := λ σ,
  match body σ with
  | (Ret a, σ') => (Ret a, σ')
  | (Raise e, σ') => handler e σ'
  end.

(** [try: body except cls: handler], for one exception class; any other
    exception passes through. *)
Definition try_except_only {A} (cls : PyExn → bool) (body : M A) (handler : M A) : M A := λ σ,
  match body σ with
  | (Ret a, σ') => (Ret a, σ')
  | (Raise e, σ') => if cls e then handler σ' else (Raise e, σ')
  end.

Definition get : M State := λ σ, (Ret σ, σ).
Definition emit (e : Effect) : M unit := λ σ,
  (Ret tt, mkState (self σ) (file σ) (tick σ) (trace σ ++ [e])).
Definition next_tick : M nat := λ σ,
  (Ret (tick σ), mkState (self σ) (file σ) (S (tick σ)) (trace σ)).
Definition set_self (d : ZKTecoDevice) : M unit := λ σ,
  (Ret tt, mkState d (file σ) (tick σ) (trace σ)).
Definition set_file (f : FileState) : M unit := λ σ,
  (Ret tt, mkState (self σ) f (tick σ) (trace σ)).

Definition logging (lvl : Level) (m : LogMsg) : M unit := emit (ELog lvl m).
Definition sleep (seconds : nat) : M unit := emit (ESleep seconds).

Definition set_status (s : string) (d : ZKTecoDevice) : ZKTecoDevice :=
  mkDevice (id d) (ip d) (name d) s (password d) (conn d) (device_logs d).
Definition set_conn (c : option Session) (d : ZKTecoDevice) : ZKTecoDevice :=
  mkDevice (id d) (ip d) (name d) (status d) (password d) c (device_logs d).
Definition set_device_logs (l : gmap string Attendance) (d : ZKTecoDevice) : ZKTecoDevice :=
  mkDevice (id d) (ip d) (name d) (status d) (password d) (conn d) l.

(** ** [ZKTecoDevice.__init__] *)
Definition init (device_data : DeviceData) : ZKTecoDevice :=
  mkDevice (cfg_id device_data) (cfg_ip device_data) (cfg_name device_data)
           (cfg_status device_data) (cfg_password device_data) None ∅.

(** ** [connect] *)
Definition connect : M bool :=
  try_except
    (σ ← get;
     n ← next_tick;
     let r := zk_connect n (ip (self σ)) in
     emit (EConnect r);;
     match r with
     | None => raise DriverError
     | Some c =>
         set_self (set_status "Connected" (set_conn (Some c) (self σ)));;
         logging INFO (ConnectedTo (name (self σ)) (ip (self σ)));;
         mret true
     end)
    (λ e,
     σ ← get;
     set_self (set_status "Connection Failed" (self σ));;
     logging ERROR (ConnectionError (name (self σ)));;
     mret false).

(** ** [send_log_to_api] *)
Definition send_log_to_api (log : Attendance) : M bool :=
  try_except_only is_RequestException
    (σ ← get;
     match api_fields log with
     | None => raise AttributeError
     | Some (u, t, s) =>
         let data := mkPayload (id (self σ)) u t s in
         n ← next_tick;
         let r := requests_post n data in
         emit (EPost data r);;
         match r with
         | TransportError => raise RequestException
         | Response code text =>
             if decide (code = 200%Z)
             then logging INFO (SentToApi data);; mret true
             else logging ERROR (SendFailed code text);; mret false
         end
     end)
    (logging ERROR SendError;; mret false).

(** ** [store_failed_log] *)

(** [open(self.failed_logs_file, 'r')] followed by [json.load(f)] *)
Definition load_file : M Store := λ σ,
  match file σ with
  | Absent | Unreadable => (Raise OSError, σ)
  | Malformed => (Raise JSONDecodeError, σ)
  | Snapshot s => (Ret s, σ)
  end.

(** [open(self.failed_logs_file, 'w')] followed by a [json.dump] that
    completes: the file holds the whole store. *)
Definition write_file (s : Store) : M unit :=
  set_file (Snapshot s);; emit (EWrite (Some s)).

(** The same when [json.dump] raises: the file was truncated by [open] and
    holds at most a prefix of the text. *)
Definition write_file_fails : M unit :=
  set_file Malformed;; emit (EWrite None);; raise TypeError.

Definition path_exists : M bool := λ σ,
  (Ret (match file σ with Absent => false | _ => true end), σ).

Definition store_failed_log (log_time : string) (log : Attendance) : M unit :=
  try_except
    (σ ← get;
     ex ← path_exists;
     failed_logs ← (if ex : bool then load_file else mret (∅ : Store));
     match dict_json log with
     | Some d =>
         let key := ip (self σ) in
         write_file (<[key := default [] (failed_logs !! key) ++ [mkFailed log_time d]]> failed_logs)
     | None => write_file_fails
     end)
    (λ e, logging ERROR (StoreFailed e)).

(** ** [process_failed_logs] *)

(** [send_log_to_api] on the [Attendance] rebuilt from the keyword arguments
    [log["log"]] *)
Definition retry (r : FailedRecord) : M bool :=
  match Attendance_init (log r) with
  | None => raise TypeError
  | Some a => send_log_to_api a
  end.

(** The first loop: the records whose retry returned [True], in order. *)
Fixpoint retry_all (logs : list FailedRecord) : M (list FailedRecord) :=
  match logs with
  | [] => mret []
  | r :: rest =>
      ok ← retry r;
      success_logs ← retry_all rest;
      mret (if ok : bool then r :: success_logs else success_logs)
  end.

(** [list.remove(x)]: drops the first element equal to [x]; [None] stands
    for the [ValueError] raised when there is none. *)
Fixpoint list_remove (x : FailedRecord) (l : list FailedRecord) : option (list FailedRecord) :=
  match l with
  | [] => None
  | y :: l' => if decide (y = x) then Some l' else (y ::.) <$> list_remove x l'
  end.

(** The second loop: [for log in success_logs: logs.remove(log)]. *)
Fixpoint remove_each (success_logs logs : list FailedRecord) : option (list FailedRecord) :=
  match success_logs with
  | [] => Some logs
  | x :: rest =>
      match list_remove x logs with
      | None => None
      | Some logs' => remove_each rest logs'
      end
  end.

Definition process_failed_logs : M unit :=
  try_except
    (σ ← get;
     ex ← path_exists;
     if negb ex then mret tt else
     loaded ← try_except_only is_JSONDecodeError
                 (s ← load_file; mret (Some s))
                 (logging ERROR DecodeFailed;; mret None);
     match loaded with
     | None => mret tt
     | Some failed_logs =>
         let key := ip (self σ) in
         match failed_logs !! key with
         | None => mret tt
         | Some logs =>
             success_logs ← retry_all logs;
             match remove_each success_logs logs with
             | None => raise ValueError
             | Some logs' =>
                 write_file (if decide (length logs' = 0)
                             then delete key failed_logs
                             else <[key := logs']> failed_logs)
             end
         end
     end)
    (λ e, logging ERROR (ProcessingError e)).

(** ** [get_live_logs] *)

(** The body of the [for] loop for one object that is not [None]. *)
Definition handle_log (item : Raw Attendance) : M unit :=
  match item with
  | RAttendance a =>
      n ← next_tick;
      let log_time := datetime_now n in
      σ ← get;
      set_self (set_device_logs (<[log_time := a]> (device_logs (self σ))) (self σ));;
      ok ← send_log_to_api a;
      if ok : bool then mret tt else store_failed_log log_time a
  | ROther repr => logging WARNING (UnknownLogType repr)
  | RNone => mret tt
  end.

(** [for log in (l for l in logs if l is not None)], returning
    [logs_captured]. *)
Fixpoint for_logs (items : list (Raw Attendance)) (logs_captured : bool) : M bool :=
  match items with
  | [] => mret logs_captured
  | RNone :: rest => for_logs rest logs_captured
  | item :: rest => handle_log item;; for_logs rest true
  end.

(** [self.conn.live_capture(new_timeout=10)] *)
Definition live_capture : M (Capture Attendance) :=
  σ ← get;
  match conn (self σ) with
  | None => raise AttributeError
  | Some c =>
      n ← next_tick;
      emit (ECapture c);;
      mret (zk_live_capture n c)
  end.

(** The [try] block of one pass of [while True]. *)
Definition capture_body : M unit :=
  σ ← get;
  connected ← match conn (self σ) with
               | Some _ => mret true
               | None => connect
               end;
  if negb connected then sleep 10 else
  logs ← live_capture;
  match logs with
  | CaptureRaises => raise DriverError
  | CaptureNone => sleep 1
  | CaptureGen items fin =>
      logs_captured ← for_logs items false;
      match fin with
      | GenRaises => raise DriverError
      | StopIteration =>
          (if logs_captured : bool then mret tt else sleep 1);;
          sleep 1
      end
  end.

(** One pass of [while True], with its [except Exception]. *)
Definition capture_pass : M unit :=
  try_except capture_body
    (λ e, σ ← get; logging ERROR (LiveLogError (name (self σ)) e);; sleep 10).

(** The first [n] passes of [get_live_logs], each on a generator that
    ends; the loop itself never ends. *)
Fixpoint get_live_logs (n : nat) : M unit :=
  match n with
  | 0 => mret tt
  | S n' => capture_pass;; get_live_logs n'
  end.

(** ** [disconnect] *)
Definition disconnect : M unit :=
  σ ← get;
  match conn (self σ) with
  | None => mret tt
  | Some c =>
      n ← next_tick;
      let ok := zk_disconnect n c in
      emit (EDisconnect c ok);;
      if ok then
        σ' ← get;
        set_self (set_status "Disconnected" (self σ'));;
        logging INFO (DisconnectedFrom (name (self σ')))
      else raise DriverError
  end.

(** ** Observations on states and traces *)

(** The requests performed, oldest first. *)
Definition posts (tr : list Effect) : list (Payload * HttpResult) :=
  omap (λ e, match e with EPost p r => Some (p, r) | _ => None end) tr.

(** The calls of the driver's [connect], with their outcome. *)
Definition connects (tr : list Effect) : list (option Session) :=
  omap (λ e, match e with EConnect r => Some r | _ => None end) tr.

(** The sessions on which the driver's [disconnect] was called. *)
Definition closes (tr : list Effect) : list Session :=
  omap (λ e, match e with EDisconnect c _ => Some c | _ => None end) tr.

(** [self.status] after the calls of the driver's [connect] of a trace: the
    outcome of the last call decides, and without a call it is what it
    was. *)
Definition status_after (attempts : list (option Session)) (s : string) : string :=
  match last attempts with
  | Some (Some _) => "Connected"
  | Some None => "Connection Failed"
  | None => s
  end.

(** The writes of [failed_logs.json]. *)
Definition writes (tr : list Effect) : list (option Store) :=
  omap (λ e, match e with EWrite c => Some c | _ => None end) tr.

(** The pending records that the file holds for a device key. *)
Definition pending (f : FileState) (key : string) : list FailedRecord :=
  match f with
  | Snapshot s => default [] (s !! key)
  | _ => []
  end.


(** The attributes of the device that only [connect] and [disconnect] set. *)
Definition same_session (d d' : ZKTecoDevice) : Prop :=
  id d' = id d ∧ ip d' = ip d ∧ name d' = name d ∧
  status d' = status d ∧ conn d' = conn d.



(** The store that the file holds, empty when it holds none. *)
Definition store_of (f : FileState) : Store :=
  match f with
  | Snapshot s => s
  | _ => ∅
  end.

(** The value that [send_log_to_api] returns for an answer of the endpoint. *)
Definition accepted (r : HttpResult) : bool :=
  match r with
  | Response code _ => bool_decide (code = 200%Z)
  | TransportError => false
  end.

(** The request that a retry of a stored record sends for a device. *)
Definition payload_of (d : ZKTecoDevice) (r : FailedRecord) : option Payload :=
  a ← Attendance_init (log r);
  '(u, t, s) ← api_fields a;
  Some (mkPayload (id d) u t s).

(** What the [for] loop over a batch can do between two states: the session
    attributes stay, the driver's [connect] and [disconnect] are not called,
    the trace grows, each request is for an [Attendance] of the batch and so
    is each new pending record, stored under the device's key. *)
Definition batch_effects (items : list (Raw Attendance)) (σ σ' : State) : Prop :=
  same_session (self σ) (self σ') ∧
  (∃ tr, trace σ' = trace σ ++ tr ∧ connects tr = [] ∧ closes tr = [] ∧
         ∀ pr, pr ∈ posts tr →
           ∃ a u t s, RAttendance a ∈ items ∧ api_fields a = Some (u, t, s) ∧
                      pr.1 = mkPayload (id (self σ)) u t s) ∧
  (∀ key entry, entry ∈ pending (file σ') key →
     entry ∈ pending (file σ) key ∨
     (key = ip (self σ) ∧ ∃ a, RAttendance a ∈ items ∧ dict_json a = Some (log entry))).

(** The retries of a sweep over [logs], one after the other: [outs] are the
    values returned by [send_log_to_api], none of the calls raising. *)
Inductive retries : State → list FailedRecord → list bool → State → Prop :=
| retries_nil σ : retries σ [] [] σ
| retries_cons σ r b σ1 logs outs σ2 :
    retry r σ = (Ret b, σ1) →
    retries σ1 logs outs σ2 →
    retries σ (r :: logs) (b :: outs) σ2.

(** The records at the positions where the retry returned [want]. *)
Fixpoint select (want : bool) (logs : list FailedRecord) (outs : list bool) : list FailedRecord :=
  match logs, outs with
  | r :: logs', b :: outs' =>
      if Bool.eqb b want then r :: select want logs' outs' else select want logs' outs'
  | _, _ => []
  end.

(** The methods of the class, to quantify over them. *)
Inductive Method :=
| Connect
| GetLiveLogs (passes : nat)
| SendLogToApi (a : Attendance)
| StoreFailedLog (log_time : string) (a : Attendance)
| ProcessFailedLogs
| Disconnect.

Definition call (m : Method) : M unit :=
  match m with
  | Connect => connect;; mret tt
  | GetLiveLogs n => get_live_logs n
  | SendLogToApi a => send_log_to_api a;; mret tt
  | StoreFailedLog t a => store_failed_log t a
  | ProcessFailedLogs => process_failed_logs
  | Disconnect => disconnect
  end.

End Logger.

Abbreviation Store := (gmap string (list FailedRecord)).

(** The cycle of the session states as the specification draws it, on the
    status strings of the source. *)
Inductive spec_edge : string → string → Prop :=
| edge_connecting : spec_edge "Disconnected" "Connecting"
| edge_connected : spec_edge "Connecting" "Connected"
| edge_failed : spec_edge "Connected" "Connection Failed"
| edge_reset : spec_edge "Connection Failed" "Disconnected".

(** ** Test doubles for the collaborators *)

(** The value of the [timestamp] attribute of a punch. *)
Inductive Stamp :=
| Datetime (image : string)   (* a datetime, given by its strftime image *)
| Text (s : string).          (* a str, as json.load gives it back *)

Definition stamp_text (t : Stamp) : string :=
  match t with Datetime s | Text s => s end.

(** A punch: the attributes [user_id], [timestamp] and [status] of an
    [Attendance].  Its attributes [uid] and [punch] are integers that
    [main.py] never reads; they are left out. *)
Record Punch := mkPunch {
  punch_user : string;
  punch_time : Stamp;
  punch_status : Z
}.

#[export] Instance Stamp_eq_dec : EqDecision Stamp.
Proof. solve_decision. Defined.

#[export] Instance Punch_eq_dec : EqDecision Punch.
Proof. solve_decision. Defined.

(** The attributes of a punch with the timestamp as text: what
    [json.load] gives back for an object that held the punch. *)
Definition as_text (a : Punch) : Punch :=
  mkPunch (punch_user a) (Text (stamp_text (punch_time a))) (punch_status a).

(** Collaborators scripted by tick, around the class that [main.py]
    imports.  [zk.attendance.Attendance] keeps its constructor arguments as
    attributes, and [__dict__] shows them as they are.  Only a [datetime] has
    [strftime], so only a punch with a [datetime] can be formatted for the
    request; [json.dump] encodes a str but raises [TypeError] on a
    [datetime], so only a punch whose [timestamp] is a str can be written;
    the constructor called on a stored object keeps its str. *)
Definition double
    (connect_script : nat → option Session)
    (capture_script : nat → Capture Punch)
    (disconnect_script : nat → bool)
    (post_script : nat → HttpResult) : Externals :=
  {| Attendance := Punch;
     Fields := Punch;
     api_fields a :=
       match punch_time a with
       | Datetime image => Some (punch_user a, image, punch_status a)
       | Text _ => None
       end;
     dict_json a :=
       match punch_time a with
       | Datetime _ => None
       | Text _ => Some a
       end;
     Attendance_init d := Some d;
     zk_connect n _ := connect_script n;
     zk_live_capture n _ := capture_script n;
     zk_disconnect n _ := disconnect_script n;
     requests_post n _ := post_script n;
     datetime_now n := "2024-01-01 09:00:0" +:+ String (Ascii.ascii_of_nat (48 + n mod 10)) "" |}.

(** A terminal that connects as session 1 and an endpoint that accepts. *)
Definition lab : Externals :=
  double (λ _, Some 1) (λ _, CaptureGen [] StopIteration) (λ _, true)
         (λ _, Response 200 "OK").

(** The same with an endpoint that answers 201 Created. *)
Definition created : Externals :=
  double (λ _, Some 1) (λ _, CaptureGen [] StopIteration) (λ _, true)
         (λ _, Response 201 "Created").

(** An endpoint that is down at tick 1 (500) and up at every other tick. *)
Definition outage : Externals :=
  double (λ _, Some 1) (λ _, CaptureGen [] StopIteration) (λ _, true)
         (λ n, if decide (n = 1) then Response 500 "Server Error" else Response 200 "OK").

(** An endpoint that is up at tick 1 only. *)
Definition window : Externals :=
  double (λ _, Some 1) (λ _, CaptureGen [] StopIteration) (λ _, true)
         (λ n, if decide (n = 1) then Response 200 "OK" else Response 500 "Server Error").

(** An endpoint that is down: a refused punch goes to [store_failed_log],
    where [json.dump] cannot encode its [datetime]. *)
Definition field : Externals :=
  double (λ _, Some 1) (λ _, CaptureGen [] StopIteration) (λ _, true)
        (λ _, Response 500 "Server Error").

(** A terminal whose stream breaks at every capture. *)
Definition broken_stream : Externals :=
  double (λ _, Some 1) (λ _, CaptureRaises) (λ _, true) (λ _, Response 200 "OK").

(** A terminal whose [disconnect] raises on a session that is already
    closed: it returns at tick 1 only. *)
Definition strict_driver : Externals :=
  double (λ _, Some 1) (λ _, CaptureGen [] StopIteration)
         (λ n, bool_decide (n = 1)) (λ _, Response 200 "OK").

(** Punches as the terminal yields them, with a [datetime]. *)
Definition punch7 : Punch := mkPunch "7" (Datetime "2024-01-01 09:00:00") 1.
Definition punch8 : Punch := mkPunch "8" (Datetime "2024-01-01 09:05:00") 1.
Definition punch9 : Punch := mkPunch "9" (Datetime "2024-01-01 09:07:00") 0.

Definition D1_data : DeviceData := mkDeviceData 1 "192.168.1.201" "D1" "Disconnected" 0.
Definition D2_data : DeviceData := mkDeviceData 2 "192.168.1.202" "D2" "Disconnected" 0.

(** ** States of the scenarios *)

(** Device D1 at start-up, with no store file. *)
Definition lab_start : @State lab := mkState (init D1_data) Absent 0 [].

(** D1 after a successful [connect]. *)
Definition lab_connected : @State lab := (connect lab_start).2.

(** D1 at start-up while the store file is not JSON. *)
Definition lab_malformed : @State lab := mkState (init D1_data) Malformed 0 [].

(** D1 while the store holds a record of D2 only. *)
Definition lab_other_key : @State lab :=
  mkState (init D1_data)
    (Snapshot {[ "192.168.1.202" := [mkFailed (Ext := lab) "2024-01-01 08:00:00" (as_text punch8)] ]})
    0 [].

(** D1 while the store holds an empty list under its key. *)
Definition lab_empty_list : @State lab :=
  mkState (init D1_data) (Snapshot {[ "192.168.1.201" := [] ]}) 0 [].

Definition created_start : @State created := mkState (init D1_data) Absent 0 [].

(** D1 captures [punch7] while the endpoint is down and there is no store
    file; the endpoint is up again afterwards. *)
Definition outage_start : @State outage := mkState (init D1_data) Absent 0 [].

(** Three pending records of D1, as [json.load] gives them back; the
    endpoint would accept the second request of a sweep only. *)
Definition R1 : @FailedRecord window :=
  mkFailed (Ext := window) "2024-01-01 07:01:00" (as_text punch7).
Definition R2 : @FailedRecord window :=
  mkFailed (Ext := window) "2024-01-01 07:02:00" (as_text punch8).
Definition R3 : @FailedRecord window :=
  mkFailed (Ext := window) "2024-01-01 07:03:00" (as_text punch9).
Definition window_store : gmap string (list (@FailedRecord window)) :=
  {[ "192.168.1.201" := [R1; R2; R3] ]}.
Definition window_start : @State window :=
  mkState (init D1_data) (Snapshot window_store) 0 [].

(** D1 enqueues a punch that [json.dump] cannot encode while the store
    holds a record of D2. *)
Definition field_start : @State field :=
  mkState (init D1_data)
    (Snapshot {[ "192.168.1.202" := [mkFailed (Ext := field) "2024-01-01 08:00:00" (as_text punch8)] ]})
    0 [].

(** D1 on a terminal whose stream breaks. *)
Definition broken_start : @State broken_stream := mkState (init D1_data) Absent 0 [].
Definition broken_fault : @State broken_stream := (capture_body broken_start).2.

(** D1 connected to a terminal that refuses a second [disconnect]. *)
Definition strict_connected : @State strict_driver :=
  (connect (mkState (init D1_data) Absent 0 [])).2.

(** ** More observations *)

Section MoreObservations.
Context `{Ext : Externals}.

(** The seconds spent in [time.sleep]. *)
Definition slept (tr : list Effect) : nat :=
  sum_list (omap (λ e, match e with ESleep seconds => Some seconds | _ => None end) tr).

(** The effects that sending and storing perform: log lines, requests and
    writes of the store file; no sleep and no call of the driver. *)
Definition is_io (e : Effect) : Prop :=
  match e with
  | ELog _ _ | EPost _ _ | EWrite _ => True
  | _ => False
  end.

(** The trace grew by such effects only. *)
Definition only_io (σ σ' : State) : Prop :=
  ∃ tr, trace σ' = trace σ ++ tr ∧ Forall is_io tr.

(** A store file in which no key holds an empty list. *)
Definition no_empty_list (f : FileState) : Prop :=
  ∀ s key logs, f = Snapshot s → s !! key = Some logs → logs ≠ [].

(** The requests that the [for] loop sends for a batch: one per
    [Attendance], in the order of the batch. *)
Definition batch_payloads (d : ZKTecoDevice) (items : list (Raw Attendance)) : list Payload :=
  omap (λ item, match item with
                | RAttendance a =>
                    '(u, t, s) ← api_fields a; Some (mkPayload (id d) u t s)
                | _ => None
                end) items.

(** Whether a batch sets [logs_captured]: it holds an object that is not
    [None]. *)
Definition captures (items : list (Raw Attendance)) : bool :=
  existsb (λ item, match item with RNone => false | _ => true end) items.

(** The device after [connect], given the answer of the driver. *)
Definition after_connect (r : option Session) (d : ZKTecoDevice) : ZKTecoDevice :=
  match r with
  | Some c => set_status "Connected" (set_conn (Some c) d)
  | None => set_status "Connection Failed" d
  end.

(** The device after a [disconnect] that returned. *)
Definition after_disconnect (d : ZKTecoDevice) : ZKTecoDevice :=
  match conn d with
  | Some _ => set_status "Disconnected" d
  | None => d
  end.

End MoreObservations.

(** ** The supervisor: the module-level code *)

(** The file [configs/devices.json]. The entries of a readable file are
    taken to be objects with the five keys that [__init__] reads. *)
Inductive ConfigFile :=
| NoConfig                             (* open() raises *)
| BadConfig                            (* json.load raises *)
| Config (devices : list DeviceData).

(** The log lines of the module-level functions. *)
Inductive SupMsg :=
| LoadDevicesError
| ShuttingDown.

Section Supervisor.
Context `{Ext : Externals}.

(** What the process does to the outside: the effects of its devices, by
    position in [active_devices], and those of the module-level code. *)
Inductive Event :=
| DeviceDid (i : nat) (e : Effect)
| SupLog (m : SupMsg)
| SupSleep (seconds : nat)
| SysExit (code : Z).

(** What the devices share: the store file, the clock and the outside. *)
Record Shared := mkShared {
  store_file : FileState;
  clock : nat;
  events : list Event
}.

(** [load_devices]: the entries of the file, or the empty list after one
    error line when reading fails. *)
Definition load_devices (c : ConfigFile) : list DeviceData * list Event :=
  match c with
  | Config devices => (devices, [])
  | NoConfig | BadConfig => ([], [SupLog LoadDevicesError])
  end.

(** [for device in active_devices: device.m()], from position [i] on. The
    method runs on the device with the shared file and clock; an exception
    ends the loop. *)
Fixpoint for_devices (m : M unit) (i : nat) (todo : list ZKTecoDevice) (w : Shared)
    : Result unit * (list ZKTecoDevice * Shared) :=
  match todo with
  | [] => (Ret tt, ([], w))
  | d :: rest =>
      let run := m (mkState d (store_file w) (clock w) []) in
      let w' := mkShared (file run.2) (tick run.2)
                         (events w ++ map (DeviceDid i) (trace run.2)) in
      match run.1 with
      | Ret _ =>
          let next := for_devices m (S i) rest w' in
          (next.1, (self run.2 :: next.2.1, next.2.2))
      | Raise e => (Raise e, (self run.2 :: rest, w'))
      end
  end.

Definition notice (e : Event) (w : Shared) : Shared :=
  mkShared (store_file w) (clock w) (events w ++ [e]).

(** The start of the main block: the devices of the configuration are
    built and each is connected once. *)
Definition startup (c : ConfigFile) (w : Shared)
    : Result unit * (list ZKTecoDevice * Shared) :=
  let loaded := load_devices c in
  let w' := mkShared (store_file w) (clock w) (events w ++ loaded.2) in
  for_devices (connect;; mret tt) 0 (map init loaded.1) w'.


(** [graceful_shutdown]: every device is disconnected in turn, then
    [sys.exit(0)]; an exception of a [disconnect] leaves the handler. *)
Definition graceful_shutdown (active_devices : list ZKTecoDevice) (w : Shared)
    : Result unit * (list ZKTecoDevice * Shared) :=
  let run := for_devices disconnect 0 active_devices (notice (SupLog ShuttingDown) w) in
  match run.1 with
  | Ret _ => (Ret tt, (run.2.1, notice (SysExit 0) run.2.2))
  | Raise e => (Raise e, run.2)
  end.

(** All the effects of devices, in order. *)
Definition device_effects (evs : list Event) : list Effect :=
  omap (λ ev, match ev with DeviceDid _ e => Some e | _ => None end) evs.


End Supervisor.

(** ** More scenarios *)

(** A terminal that cannot be reached. *)
Definition unplugged : Externals :=
  double (λ _, None) (λ _, CaptureGen [] StopIteration) (λ _, true)
         (λ _, Response 200 "OK").

Definition D3_data : DeviceData := mkDeviceData 3 "192.168.1.203" "D3" "Disconnected" 0.

(** A batch of an unknown object, a [None] and two punches. *)
Definition mixed_batch : list (Raw Punch) :=
  [ROther "heartbeat"; RNone; RAttendance punch7; RAttendance punch8].

(** A terminal that yields that batch at every capture, and an endpoint
    that refuses every request. *)
Definition refusing : Externals :=
  double (λ _, Some 1) (λ _, CaptureGen mixed_batch StopIteration) (λ _, true)
         (λ _, Response 500 "Server Error").

(** A batch whose second punch has a [timestamp] that is a str. *)
Definition lab_after_punch7 : @State lab :=
  (for_logs (Ext := lab) [RAttendance punch7] false lab_connected).2.

(** Two pending records of D1 and one of D2. *)
Definition P7 : Punch := as_text punch7.
Definition P8 : Punch := as_text punch8.
Definition two_pending {Ext : Externals} (r1 r2 r3 : FailedRecord)
    : gmap string (list FailedRecord) :=
  {[ "192.168.1.201" := [r1; r2]; "192.168.1.202" := [r3] ]}.

Definition lab_store : gmap string (list (@FailedRecord lab)) :=
  two_pending (Ext := lab) (mkFailed (Ext := lab) "2024-01-01 07:01:00" P7)
                           (mkFailed (Ext := lab) "2024-01-01 07:02:00" P8)
                           (mkFailed (Ext := lab) "2024-01-01 08:00:00" P8).
Definition lab_pending : @State lab := mkState (init D1_data) (Snapshot lab_store) 0 [].

(** D1 at start-up on that terminal, while the store holds a record of D2. *)
Definition refusing_start : @State refusing :=
  mkState (init D1_data)
    (Snapshot {[ "192.168.1.202" :=
                   [mkFailed (Ext := refusing) "2024-01-01 08:00:00" (as_text punch8)] ]})
    0 [].

(** The same store while the endpoint is down. *)
Definition field_first : @FailedRecord field :=
  mkFailed (Ext := field) "2024-01-01 07:01:00" P7.
Definition field_second : @FailedRecord field :=
  mkFailed (Ext := field) "2024-01-01 07:02:00" P8.
Definition field_store : gmap string (list (@FailedRecord field)) :=
  two_pending (Ext := field) field_first field_second
              (mkFailed (Ext := field) "2024-01-01 08:00:00" P8).
Definition field_pending : @State field := mkState (init D1_data) (Snapshot field_store) 0 [].

Definition unplugged_start : @State unplugged := mkState (init D1_data) Absent 0 [].

(** Three devices at shutdown: D1 and D3 hold session 1, D2 never
    connected. *)
Definition fleet {Ext : Externals} : list ZKTecoDevice :=
  [after_connect (Some 1) (init D1_data); init D2_data; after_connect (Some 1) (init D3_data)].

(** The process with no store file and nothing done yet, at tick [n]. *)
Definition fresh {Ext : Externals} (n : nat) : Shared := mkShared Absent n [].

(** * Properties *)

Section Properties.
Context `{Ext : Externals}.

Ltac unfold_M :=
  unfold mbind, mret, M_bind, M_ret, raise, try_except, try_except_only, get,
    emit, next_tick, set_self, set_file, logging, sleep, write_file,
    write_file_fails, load_file, path_exists in *.

Ltac run_M := repeat first [progress unfold_M | progress simpl].

(** Runs a computation, using the equation [H] wherever it applies. *)
Ltac run_with H := run_M; repeat (rewrite !H; run_M).

Lemma posts_app (tr1 tr2 : list Effect) : posts (tr1 ++ tr2) = posts tr1 ++ posts tr2.
Proof. apply omap_app. Qed.

Lemma connects_app (tr1 tr2 : list Effect) :
  connects (tr1 ++ tr2) = connects tr1 ++ connects tr2.
Proof. apply omap_app. Qed.

Lemma closes_app (tr1 tr2 : list Effect) : closes (tr1 ++ tr2) = closes tr1 ++ closes tr2.
Proof. apply omap_app. Qed.

Lemma writes_app (tr1 tr2 : list Effect) : writes (tr1 ++ tr2) = writes tr1 ++ writes tr2.
Proof. apply omap_app. Qed.

(** ** The delivery client *)

(** [send_log_to_api] in closed form: one request, answered by the endpoint
    at the current tick. *)
Lemma send_log_to_api_run (a : Attendance) (σ : State) :
  send_log_to_api a σ =
  match api_fields a with
  | None => (Raise AttributeError, σ)
  | Some (u, t, s) =>
      let data := mkPayload (id (self σ)) u t s in
      let r := requests_post (tick σ) data in
      let line := match r with
                  | Response code text =>
                      if decide (code = 200%Z) then ELog INFO (SentToApi data)
                      else ELog ERROR (SendFailed code text)
                  | TransportError => ELog ERROR SendError
                  end in
      (Ret (accepted r),
       mkState (self σ) (file σ) (S (tick σ)) ((trace σ ++ [EPost data r]) ++ [line]))
  end.
Proof.
  unfold send_log_to_api. run_M.
  destruct (api_fields a) as [[[u t] s]|]; run_M; [|done].
  destruct (requests_post _ _) as [code text|]; run_M; [|done].
  rewrite bool_decide_decide. destruct (decide (code = 200%Z)); done.
Qed.

Lemma accepted_200 (r : HttpResult) : accepted r = true ↔ ∃ text, r = Response 200 text.
Proof.
  destruct r as [code text|]; simpl.
  - rewrite bool_decide_eq_true. split; [intros ->; by eexists|by intros [? [= ->]]].
  - split; [done|by intros [? ?]].
Qed.

(** C8 (as amended): [send_log_to_api] performs exactly one request and
    returns [True] exactly when the response status is 200; every other
    status code, other 2xx codes included, and a transport error give
    [False]. *)
Theorem send_log_to_api_only_200 (a : Attendance) (u t : string) (s : Z) (σ : State) :
  api_fields a = Some (u, t, s) →
  let data := mkPayload (id (self σ)) u t s in
  let r := requests_post (tick σ) data in
  ((send_log_to_api a σ).1 = Ret true ∨ (send_log_to_api a σ).1 = Ret false) ∧
  ((send_log_to_api a σ).1 = Ret true ↔ ∃ text, r = Response 200 text) ∧
  ((send_log_to_api a σ).1 = Ret false ↔
     r = TransportError ∨ ∃ code text, r = Response code text ∧ code ≠ 200%Z) ∧
  posts (trace (send_log_to_api a σ).2) = posts (trace σ) ++ [(data, r)].
Proof.
  intros Hf data r. rewrite send_log_to_api_run, Hf. simpl.
  fold data. fold r.
  split; [destruct (accepted r); [by left|by right]|].
  split; [rewrite <- accepted_200; split; [by intros [= ->]|by intros ->]|].
  split.
  - destruct r as [code text|]; simpl.
    + split.
      * intros [= H%bool_decide_eq_false]. right. by exists code, text.
      * intros [?|(? & ? & [= <- <-] & Hne)]; [done|].
        f_equal. by apply bool_decide_eq_false.
    + split; [by left|done].
  - rewrite !posts_app. simpl. destruct r as [code text|]; simpl.
    + destruct (decide (code = 200%Z)); simpl; by rewrite app_nil_r.
    + by rewrite app_nil_r.
Qed.

(** ** The failed-log store: enqueue *)

Lemma store_failed_log_run (t : string) (a : Attendance) (σ : State) :
  store_failed_log t a σ =
  let fail e := (Ret tt, mkState (self σ) (file σ) (tick σ)
                            (trace σ ++ [ELog ERROR (StoreFailed e)])) in
  let go (failed_logs : Store) :=
    match dict_json a with
    | Some d =>
        let key := ip (self σ) in
        let s' := <[key := default [] (failed_logs !! key) ++ [mkFailed t d]]> failed_logs in
        (Ret tt, mkState (self σ) (Snapshot s') (tick σ) (trace σ ++ [EWrite (Some s')]))
    | None =>
        (Ret tt, mkState (self σ) Malformed (tick σ)
                   ((trace σ ++ [EWrite None]) ++ [ELog ERROR (StoreFailed TypeError)]))
    end in
  match file σ with
  | Absent => go ∅
  | Unreadable => fail OSError
  | Malformed => fail JSONDecodeError
  | Snapshot s => go s
  end.
Proof.
  unfold store_failed_log.
  destruct (file σ) eqn:Hfile; run_with Hfile; try done;
    destruct (dict_json a); run_with Hfile; done.
Qed.

(** ** The failed-log store: retry sweep *)

(** The sweep when the file is missing, cannot be read or is not JSON. *)
Lemma process_failed_logs_no_snapshot (σ : State) :
  process_failed_logs σ =
  match file σ with
  | Absent => (Ret tt, σ)
  | Unreadable =>
      (Ret tt, mkState (self σ) (file σ) (tick σ)
                 (trace σ ++ [ELog ERROR (ProcessingError OSError)]))
  | Malformed =>
      (Ret tt, mkState (self σ) (file σ) (tick σ) (trace σ ++ [ELog ERROR DecodeFailed]))
  | Snapshot _ => process_failed_logs σ
  end.
Proof.
  destruct (file σ) eqn:Hfile; [| | |done];
    unfold process_failed_logs; run_with Hfile; done.
Qed.

(** C4: when the persisted snapshot is malformed or unreadable, the sweep
    logs one error line and returns normally; the file is left as it was and
    nothing is written, so no device's persisted records are replaced. *)
Theorem sweep_skips_bad_snapshot (σ : State) :
  file σ = Malformed ∨ file σ = Unreadable →
  ∃ line, process_failed_logs σ =
            (Ret tt, mkState (self σ) (file σ) (tick σ) (trace σ ++ [ELog ERROR line])) ∧
          writes (trace (process_failed_logs σ).2) = writes (trace σ) ∧
          ∀ key, pending (file (process_failed_logs σ).2) key = pending (file σ) key.
Proof.
  intros Hbad. rewrite process_failed_logs_no_snapshot.
  destruct Hbad as [H|H]; rewrite H.
  - exists DecodeFailed. simpl. rewrite writes_app. simpl.
    split; [done|]. split; [by rewrite app_nil_r|done].
  - exists (ProcessingError OSError). simpl. rewrite writes_app. simpl.
    split; [done|]. split; [by rewrite app_nil_r|done].
Qed.

(** The sweep when the snapshot has no key for the device. *)
Lemma process_failed_logs_no_key (σ : State) (s : Store) :
  file σ = Snapshot s → s !! ip (self σ) = None →
  process_failed_logs σ = (Ret tt, σ).
Proof.
  intros H Hkey. unfold process_failed_logs. run_with H. rewrite Hkey. by destruct σ.
Qed.

(** C5 (as amended): when there is no store file, or the snapshot has no
    key for the device, the sweep changes nothing at all: no write, no
    request, no log line. *)
Theorem sweep_without_key_is_noop (σ : State) :
  file σ = Absent ∨ (∃ s : Store, file σ = Snapshot s ∧ s !! ip (self σ) = None) →
  process_failed_logs σ = (Ret tt, σ).
Proof.
  intros [H|(s & H & Hkey)].
  - by rewrite process_failed_logs_no_snapshot, H.
  - by apply (process_failed_logs_no_key σ s).
Qed.

(** *** [list.remove] and the removal loop *)


Lemma list_remove_elem_of (x : FailedRecord) (l : list FailedRecord) :
  x ∈ l → is_Some (list_remove x l).
Proof.
  induction l as [|y l IH]; intros Hin; [by apply elem_of_nil in Hin|].
  simpl. destruct (decide (y = x)) as [->|Hne]; [by eexists|].
  apply elem_of_cons in Hin as [->|Hin]; [done|].
  destruct (IH Hin) as [l1 ->]. by eexists.
Qed.


(** *** The retries *)

Lemma retry_Ret (r : FailedRecord) (σ σ1 : State) (b : bool) :
  retry r σ = (Ret b, σ1) →
  ∃ p, payload_of (self σ) r = Some p ∧
       b = accepted (requests_post (tick σ) p) ∧
       self σ1 = self σ ∧ file σ1 = file σ ∧ tick σ1 = S (tick σ) ∧
       posts (trace σ1) = posts (trace σ) ++ [(p, requests_post (tick σ) p)] ∧
       writes (trace σ1) = writes (trace σ).
Proof.
  unfold retry, payload_of. destruct (Attendance_init (log r)) as [a|]; [|done].
  rewrite send_log_to_api_run. simpl.
  destruct (api_fields a) as [[[u t] s]|]; [|done]. simpl.
  intros H. injection H as <- <-. eexists. split; [done|]. simpl.
  rewrite !posts_app, !writes_app. simpl.
  destruct (requests_post _ _) as [code text|]; simpl;
    [destruct (decide (code = 200%Z))|]; simpl; by rewrite !app_nil_r.
Qed.

Lemma retries_spec (σ σ1 : State) (logs : list FailedRecord) (outs : list bool) :
  retries σ logs outs σ1 →
  retry_all logs σ = (Ret (select true logs outs), σ1) ∧
  length outs = length logs ∧
  self σ1 = self σ ∧ file σ1 = file σ ∧ tick σ1 = tick σ + length logs ∧
  writes (trace σ1) = writes (trace σ) ∧
  ∃ ps, posts (trace σ1) = posts (trace σ) ++ ps ∧
        Forall2 (λ r pr, payload_of (self σ) r = Some pr.1) logs ps ∧
        Forall2 (λ b pr, b = accepted pr.2) outs ps.
Proof.
  induction 1 as [σ|σ r b σ1 logs outs σ2 Hr Hrs IH].
  - simpl. repeat split; try done; try lia. exists []. rewrite app_nil_r. by repeat split.
  - destruct IH as (Hall & Hlen & Hself & Hfile & Htick & Hw & ps & Hps & Hpay & Hacc).
    pose proof (retry_Ret _ _ _ _ Hr) as (p & Hp & Hb & Hself1 & Hfile1 & Htick1 & Hposts1 & Hw1).
    repeat split.
    + simpl. unfold mbind, M_bind at 1. rewrite Hr. unfold mbind, M_bind at 1.
      rewrite Hall. unfold mret, M_ret. by destruct b.
    + simpl. by rewrite Hlen.
    + congruence.
    + congruence.
    + simpl. lia.
    + congruence.
    + exists ((p, requests_post (tick σ) p) :: ps). split; [|split].
      * rewrite Hps, Hposts1, <- app_assoc. done.
      * constructor; [done|]. by rewrite <- Hself1.
      * by constructor.
Qed.

(** The sweep on a snapshot that holds a list for the device. *)
Lemma process_failed_logs_snapshot (σ : State) (s : Store) (logs : list FailedRecord) :
  file σ = Snapshot s → s !! ip (self σ) = Some logs →
  process_failed_logs σ =
  match retry_all logs σ with
  | (Ret success_logs, σ1) =>
      match remove_each success_logs logs with
      | Some logs' =>
          let s' := if decide (length logs' = 0) then delete (ip (self σ)) s
                    else <[ip (self σ) := logs']> s in
          (Ret tt, mkState (self σ1) (Snapshot s') (tick σ1) (trace σ1 ++ [EWrite (Some s')]))
      | None =>
          (Ret tt, mkState (self σ1) (file σ1) (tick σ1)
                     (trace σ1 ++ [ELog ERROR (ProcessingError ValueError)]))
      end
  | (Raise e, σ1) =>
      (Ret tt, mkState (self σ1) (file σ1) (tick σ1)
                 (trace σ1 ++ [ELog ERROR (ProcessingError e)]))
  end.
Proof.
  intros Hfile Hkey. unfold process_failed_logs. run_with Hfile. rewrite Hkey.
  destruct (retry_all logs σ) as [[ok|e] σ1]; [|done].
  destruct (remove_each ok logs) as [logs'|]; done.
Qed.

(** ** The capture loop: one captured event *)

Lemma handle_log_attendance (a : Attendance) (σ : State) :
  handle_log (RAttendance a) σ =
  let log_time := datetime_now (tick σ) in
  let σa := mkState (set_device_logs (<[log_time := a]> (device_logs (self σ))) (self σ))
                    (file σ) (S (tick σ)) (trace σ) in
  match send_log_to_api a σa with
  | (Ret ok, σb) => if ok then (Ret tt, σb) else store_failed_log log_time a σb
  | (Raise e, σb) => (Raise e, σb)
  end.
Proof.
  unfold handle_log. run_M.
  destruct (send_log_to_api a _) as [[[|]|e] σb]; done.
Qed.

(** ** Other devices' entries *)

Lemma bind_run {A B} (m : M A) (k : A → M B) (σ : State) :
  (m ≫= k) σ =
  match m σ with
  | (Ret a, σ') => k a σ'
  | (Raise e, σ') => (Raise e, σ')
  end.
Proof. done. Qed.

Lemma retry_keeps (r : FailedRecord) (σ : State) :
  self (retry r σ).2 = self σ ∧ file (retry r σ).2 = file σ.
Proof.
  unfold retry. destruct (Attendance_init (log r)) as [a|]; [|done].
  rewrite send_log_to_api_run. by destruct (api_fields a) as [[[u t] s]|].
Qed.

Lemma retry_all_keeps (logs : list FailedRecord) (σ : State) :
  self (retry_all logs σ).2 = self σ ∧ file (retry_all logs σ).2 = file σ.
Proof.
  revert σ. induction logs as [|r logs IH]; intros σ; simpl; [done|].
  rewrite bind_run. destruct (retry_keeps r σ) as [Hs Hf].
  destruct (retry r σ) as [[b|e] σ1]; simpl in *; [|done].
  rewrite bind_run. destruct (IH σ1) as [Hs1 Hf1].
  destruct (retry_all logs σ1) as [[ok|e] σ2]; simpl in *; split; congruence.
Qed.


(** So does an enqueue, when [json.dump] can encode the record. *)
Lemma store_failed_log_frame (t : string) (a : Attendance) (σ : State) (key : string) :
  key ≠ ip (self σ) →
  is_Some (dict_json a) →
  pending (file (store_failed_log t a σ).2) key = pending (file σ) key.
Proof.
  intros Hne [d Hd]. rewrite store_failed_log_run. cbv zeta. rewrite Hd.
  destruct (file σ) as [| | |s] eqn:Hfile; simpl; rewrite ?Hfile; try done.
  - by rewrite lookup_insert_ne, lookup_empty.
  - by rewrite lookup_insert_ne.
Qed.

(** ** The capture loop: a batch *)

Lemma batch_effects_refl (items : list (Raw Attendance)) (σ : State) :
  batch_effects items σ σ.
Proof.
  split; [done|]. split; [|by left].
  exists []. rewrite app_nil_r. repeat split; try done. by intros pr ?%elem_of_nil.
Qed.

Lemma batch_effects_trans (i1 i2 items : list (Raw Attendance)) (σ1 σ2 σ3 : State) :
  i1 ⊆ items → i2 ⊆ items →
  batch_effects i1 σ1 σ2 → batch_effects i2 σ2 σ3 → batch_effects items σ1 σ3.
Proof.
  intros H1 H2 ((Hid & Hip & Hname & Hst & Hconn) & (tr1 & Htr1 & Hc1 & Hd1 & Hp1) & Hq1)
               ((Hid' & Hip' & Hname' & Hst' & Hconn') & (tr2 & Htr2 & Hc2 & Hd2 & Hp2) & Hq2).
  split; [|split].
  - repeat split; congruence.
  - exists (tr1 ++ tr2).
    rewrite Htr2, Htr1, app_assoc, connects_app, closes_app, Hc1, Hc2, Hd1, Hd2.
    repeat split; try done.
    intros pr. rewrite posts_app.
    intros [Hin|Hin]%elem_of_app.
    + destruct (Hp1 pr Hin) as (a & u & t & s & Ha & Hf & Hpr).
      exists a, u, t, s. split; [by apply H1|done].
    + destruct (Hp2 pr Hin) as (a & u & t & s & Ha & Hf & Hpr).
      exists a, u, t, s. split; [by apply H2|]. split; [done|]. by rewrite <- Hid.
  - intros key entry Hin. destruct (Hq2 key entry Hin) as [Hin2|(-> & a & Ha & Hd)].
    + destruct (Hq1 key entry Hin2) as [?|(-> & a & Ha & Hd)]; [by left|].
      right. split; [done|]. exists a. split; [by apply H1|done].
    + right. split; [done|]. exists a. split; [by apply H2|done].
Qed.

Lemma send_log_to_api_effects (a : Attendance) (σ : State) :
  batch_effects [RAttendance a] σ (send_log_to_api a σ).2.
Proof.
  rewrite send_log_to_api_run.
  destruct (api_fields a) as [[[u t] s]|] eqn:Hf; [|apply batch_effects_refl].
  cbv zeta. simpl.
  set (data := mkPayload (id (self σ)) u t s).
  set (r := requests_post (tick σ) data).
  split; [done|]. split; [|by left]. simpl.
  eexists. rewrite <- app_assoc. split; [done|].
  assert (RAttendance a ∈ [RAttendance a]) as Ha by by apply list_elem_of_singleton.
  destruct r as [code text|]; [destruct (decide (code = 200%Z))|]; simpl;
    (split; [done|]); (split; [done|]);
    intros pr ->%list_elem_of_singleton; by exists a, u, t, s.
Qed.

Lemma store_failed_log_effects (t : string) (a : Attendance) (σ : State) :
  batch_effects [RAttendance a] σ (store_failed_log t a σ).2.
Proof.
  assert (RAttendance a ∈ [RAttendance a]) as Ha by by apply list_elem_of_singleton.
  rewrite store_failed_log_run. cbv zeta.
  destruct (file σ) as [| | |st] eqn:Hfile; [destruct (dict_json a) as [d|] eqn:Hd| |
                                            |destruct (dict_json a) as [d|] eqn:Hd];
    simpl; (split; [done|]); (split; [eexists; rewrite <- ?app_assoc; split; [done|];
                                        repeat split; try done; by intros pr ?%elem_of_nil|]);
    simpl; rewrite ?Hfile; simpl; intros key entry; try by left.
  - destruct (decide (ip (self σ) = key)) as [<-|Hne].
    + rewrite lookup_insert_eq, lookup_empty. simpl.
      intros ->%list_elem_of_singleton. right. split; [done|]. by exists a.
    + rewrite lookup_insert_ne, lookup_empty by done. by left.
  - destruct (decide (ip (self σ) = key)) as [<-|Hne].
    + rewrite lookup_insert_eq. simpl.
      intros [Hin| ->%list_elem_of_singleton]%elem_of_app; [by left|].
      right. split; [done|]. by exists a.
    + rewrite lookup_insert_ne by done. by left.
  - by intros ?%elem_of_nil.
Qed.

Lemma handle_log_effects (item : Raw Attendance) (σ : State) :
  batch_effects [item] σ (handle_log item σ).2.
Proof.
  destruct item as [|a|repr].
  - apply batch_effects_refl.
  - rewrite handle_log_attendance. cbv zeta.
    set (σa := mkState _ (file σ) (S (tick σ)) (trace σ)).
    assert (batch_effects [RAttendance a] σ σa) as H0.
    { split; [done|]. split; [|by left]. exists []. simpl. rewrite app_nil_r.
      repeat split; try done. by intros pr ?%elem_of_nil. }
    pose proof (send_log_to_api_effects a σa) as H1.
    destruct (send_log_to_api a σa) as [[[|]|e] σb]; simpl in H1.
    + by apply (batch_effects_trans [RAttendance a] [RAttendance a] _ σ σa).
    + apply (batch_effects_trans [RAttendance a] [RAttendance a] _ σ σb); [done|done| |].
      * by apply (batch_effects_trans [RAttendance a] [RAttendance a] _ σ σa).
      * apply store_failed_log_effects.
    + by apply (batch_effects_trans [RAttendance a] [RAttendance a] _ σ σa).
  - simpl. split; [done|]. split; [|by left]. eexists. split; [done|].
    repeat split; try done. by intros pr ?%elem_of_nil.
Qed.

Lemma for_logs_cons (item : Raw Attendance) (items : list (Raw Attendance))
    (b : bool) (σ : State) :
  for_logs (item :: items) b σ =
  match item with
  | RNone => for_logs items b σ
  | _ => match handle_log item σ with
         | (Ret _, σ1) => for_logs items true σ1
         | (Raise e, σ1) => (Raise e, σ1)
         end
  end.
Proof. by destruct item. Qed.

Lemma for_logs_effects (items : list (Raw Attendance)) (b : bool) (σ : State) :
  batch_effects items σ (for_logs items b σ).2.
Proof.
  revert b σ. induction items as [|item items IH]; intros b σ.
  - apply batch_effects_refl.
  - assert ([item] ⊆ item :: items) as Hsub1.
    { intros x ->%list_elem_of_singleton. by left. }
    assert (items ⊆ item :: items) as Hsub2.
    { intros x ?. by right. }
    rewrite for_logs_cons. destruct item as [|a|repr].
    + apply (batch_effects_trans [RNone] items _ σ σ); [done|done|apply batch_effects_refl|apply IH].
    + pose proof (handle_log_effects (RAttendance a) σ) as H.
      destruct (handle_log (RAttendance a) σ) as [[[]|e] σ1]; simpl in H.
      * apply (batch_effects_trans [RAttendance a] items _ σ σ1); [done|done|done|apply IH].
      * apply (batch_effects_trans [RAttendance a] items _ σ σ1);
          [done|done|done|apply batch_effects_refl].
    + pose proof (handle_log_effects (ROther repr : Raw Attendance) σ) as H.
      destruct (handle_log (ROther repr) σ) as [[[]|e] σ1]; simpl in H.
      * apply (batch_effects_trans [ROther repr] items _ σ σ1); [done|done|done|apply IH].
      * apply (batch_effects_trans [ROther repr] items _ σ σ1);
          [done|done|done|apply batch_effects_refl].
Qed.











(** ** The session: [connect], the capture loop, [disconnect] *)

Lemma connect_run (σ : State) :
  connect σ =
  match zk_connect (tick σ) (ip (self σ)) with
  | Some c =>
      (Ret true,
       mkState (set_status "Connected" (set_conn (Some c) (self σ))) (file σ) (S (tick σ))
               ((trace σ ++ [EConnect (Some c)]) ++
                [ELog INFO (ConnectedTo (name (self σ)) (ip (self σ)))]))
  | None =>
      (Ret false,
       mkState (set_status "Connection Failed" (self σ)) (file σ) (S (tick σ))
               ((trace σ ++ [EConnect None]) ++ [ELog ERROR (ConnectionError (name (self σ)))]))
  end.
Proof. unfold connect. run_M. destruct (zk_connect _ _); run_M; done. Qed.

Lemma disconnect_run (σ : State) :
  disconnect σ =
  match conn (self σ) with
  | None => (Ret tt, σ)
  | Some c =>
      if zk_disconnect (tick σ) c
      then (Ret tt,
            mkState (set_status "Disconnected" (self σ)) (file σ) (S (tick σ))
                    ((trace σ ++ [EDisconnect c true]) ++
                     [ELog INFO (DisconnectedFrom (name (self σ)))]))
      else (Raise DriverError,
            mkState (self σ) (file σ) (S (tick σ)) (trace σ ++ [EDisconnect c false]))
  end.
Proof.
  unfold disconnect. run_M. destruct (conn (self σ)); run_M; [|by destruct σ].
  destruct (zk_disconnect _ _); run_M; done.
Qed.

(** The [try] block of a pass when a session object is there: no
    [connect], [live_capture] on that object. *)
Lemma capture_body_connected (σ : State) (c : Session) :
  conn (self σ) = Some c →
  capture_body σ =
  let σ1 := mkState (self σ) (file σ) (S (tick σ)) (trace σ ++ [ECapture c]) in
  match zk_live_capture (tick σ) c with
  | CaptureRaises => (Raise DriverError, σ1)
  | CaptureNone => sleep 1 σ1
  | CaptureGen items fin =>
      match for_logs items false σ1 with
      | (Ret logs_captured, σ2) =>
          match fin with
          | GenRaises => (Raise DriverError, σ2)
          | StopIteration =>
              ((if logs_captured : bool then mret tt else sleep 1);; sleep 1) σ2
          end
      | (Raise e, σ2) => (Raise e, σ2)
      end
  end.
Proof.
  intros Hc. unfold capture_body. rewrite bind_run. unfold get at 1.
  rewrite Hc. rewrite bind_run. unfold mret at 1, M_ret at 1.
  cbn [negb]. rewrite bind_run. unfold live_capture. rewrite bind_run.
  unfold get at 1. rewrite Hc. run_M.
  destruct (zk_live_capture (tick σ) c) as [| |items fin]; try done.
  destruct (for_logs items false _) as [[captured|e] σ2]; [|done].
  destruct fin; [|done]. by destruct captured.
Qed.

(** A pass with a session object keeps it and does not call [connect]. *)
Lemma capture_pass_connected (σ : State) (c : Session) :
  conn (self σ) = Some c →
  (capture_pass σ).1 = Ret tt ∧
  same_session (self σ) (self (capture_pass σ).2) ∧
  ∃ tr, trace (capture_pass σ).2 = trace σ ++ ECapture c :: tr ∧
        connects tr = [] ∧ closes tr = [].
Proof.
  intros Hc. unfold capture_pass, try_except.
  rewrite (capture_body_connected σ c Hc). cbv zeta.
  set (σ1 := mkState (self σ) (file σ) (S (tick σ)) (trace σ ++ [ECapture c])).
  destruct (zk_live_capture (tick σ) c) as [| |items fin]; run_M.
  - split; [done|]. split; [done|]. eexists. rewrite <- !app_assoc. by split.
  - split; [done|]. split; [done|]. eexists. rewrite <- !app_assoc. by split.
  - destruct (for_logs_effects items false σ1) as (Hsame & (tr & Htr & Hco & Hcl & _) & _).
    destruct (for_logs items false σ1) as [[captured|e] σ2]; simpl in *.
    + destruct fin; [destruct captured|]; run_M; (split; [done|]); (split; [done|]);
        rewrite Htr, <- !app_assoc; simpl; eexists; (split; [done|]);
        rewrite connects_app, closes_app, Hco, Hcl; done.
    + split; [done|]. split; [done|].
      rewrite Htr, <- !app_assoc; simpl; eexists; (split; [done|]).
      rewrite connects_app, closes_app, Hco, Hcl; done.
Qed.

(** The [try] block of a pass when there is no session object: [connect],
    then the same as above if it succeeded, else a sleep of 10 seconds. *)
Lemma capture_body_unconnected (σ : State) :
  conn (self σ) = None →
  capture_body σ =
  match connect σ with
  | (Ret true, σ0) => capture_body σ0
  | (Ret false, σ0) => sleep 10 σ0
  | (Raise e, σ0) => (Raise e, σ0)
  end.
Proof.
  intros Hc. unfold capture_body at 1. rewrite bind_run. unfold get at 1.
  rewrite Hc, bind_run, connect_run.
  destruct (zk_connect (tick σ) (ip (self σ))) as [c|]; [|done].
  reflexivity.
Qed.

(** A pass without a session object starts with [connect]. *)
Lemma capture_pass_unconnected (σ : State) :
  conn (self σ) = None →
  let r := zk_connect (tick σ) (ip (self σ)) in
  let σ' := (capture_pass σ).2 in
  (capture_pass σ).1 = Ret tt ∧
  conn (self σ') = r ∧
  status (self σ') = match r with Some _ => "Connected" | None => "Connection Failed" end ∧
  id (self σ') = id (self σ) ∧ ip (self σ') = ip (self σ) ∧ name (self σ') = name (self σ) ∧
  ∃ tr, trace σ' = trace σ ++ EConnect r :: tr ∧ connects tr = [] ∧ closes tr = [].
Proof.
  intros Hc. cbv zeta. unfold capture_pass, try_except.
  rewrite (capture_body_unconnected σ Hc), connect_run.
  destruct (zk_connect (tick σ) (ip (self σ))) as [c|] eqn:Hr.
  - set (σ0 := mkState _ (file σ) (S (tick σ)) _).
    assert (conn (self σ0) = Some c) as Hc0 by done.
    pose proof (capture_pass_connected σ0 c Hc0)
      as (Hret & (Hid & Hip & Hname & Hst & Hcn) & tr & Htr & Hco & Hcl).
    unfold capture_pass, try_except in Hret, Hid, Hip, Hname, Hst, Hcn, Htr.
    split; [exact Hret|]. rewrite Hcn, Hst, Hid, Hip, Hname, Htr.
    repeat (split; [done|]).
    subst σ0. simpl. rewrite <- !app_assoc. simpl. eexists. split; [done|].
    simpl. by rewrite Hco, Hcl.
  - run_M. split; [done|]. split; [by rewrite Hc|]. repeat (split; [done|]).
    rewrite <- !app_assoc. simpl. eexists. by split.
Qed.

Lemma capture_pass_fault (σ σ1 : State) (e : PyExn) :
  capture_body σ = (Raise e, σ1) →
  capture_pass σ =
    (Ret tt, mkState (self σ1) (file σ1) (tick σ1)
               (trace σ1 ++ [ELog ERROR (LiveLogError (name (self σ1)) e); ESleep 10])).
Proof.
  intros H. unfold capture_pass, try_except. rewrite H. run_M. by rewrite <- app_assoc.
Qed.

(** A fault can only come after [live_capture] was reached, hence with a
    session object in [self.conn]. *)
Lemma capture_body_fault_session (σ σ1 : State) (e : PyExn) :
  capture_body σ = (Raise e, σ1) → ∃ c, conn (self σ1) = Some c.
Proof.
  intros H. pose proof (capture_pass_fault σ σ1 e H) as Hpass.
  destruct (conn (self σ)) as [c|] eqn:Hc.
  - destruct (capture_pass_connected σ c Hc) as (_ & (_ & _ & _ & _ & Hcn) & _).
    rewrite Hpass in Hcn. simpl in Hcn. exists c. congruence.
  - destruct (capture_pass_unconnected σ Hc) as (_ & Hcn & _).
    rewrite Hpass in Hcn. simpl in Hcn.
    rewrite (capture_body_unconnected σ Hc), connect_run in H.
    destruct (zk_connect (tick σ) (ip (self σ))) as [c|]; [by exists c|done].
Qed.

(** Once a session object is there, no pass of the loop calls [connect]. *)
Lemma get_live_logs_connected (n : nat) (σ : State) (c : Session) :
  conn (self σ) = Some c →
  (get_live_logs n σ).1 = Ret tt ∧
  same_session (self σ) (self (get_live_logs n σ).2) ∧
  connects (trace (get_live_logs n σ).2) = connects (trace σ).
Proof.
  revert σ. induction n as [|n IH]; intros σ Hc; simpl; [done|].
  rewrite bind_run.
  destruct (capture_pass_connected σ c Hc)
    as (Hret & (Hid & Hip & Hname & Hst & Hcn) & tr & Htr & Hco & _).
  destruct (capture_pass σ) as [[[]|e] σ1]; simpl in *; [|done].
  destruct (IH σ1) as (Hret' & (Hid' & Hip' & Hname' & Hst' & Hcn') & Hco'); [congruence|].
  split; [done|]. split; [repeat split; congruence|].
  rewrite Hco', Htr, connects_app. simpl. by rewrite Hco, app_nil_r.
Qed.

(** C2 (as amended): a fault caught by the loop is logged and followed by a
    sleep of 10 seconds.  The session object is still in [self.conn]: the
    next pass calls [live_capture] on it, and no later pass calls
    [connect].  A pass calls [connect] only while [self.conn] is unset. *)
Theorem fault_keeps_session (σ0 σ σ1 : State) (e : PyExn) :
  conn (self σ0) = None →
  capture_body σ = (Raise e, σ1) →
  let σ' := (capture_pass σ).2 in
  capture_pass σ =
    (Ret tt, mkState (self σ1) (file σ1) (tick σ1)
               (trace σ1 ++ [ELog ERROR (LiveLogError (name (self σ1)) e); ESleep 10])) ∧
  (∃ c, conn (self σ') = Some c ∧
        (∃ tr, trace (capture_pass σ').2 = trace σ' ++ ECapture c :: tr ∧ connects tr = []) ∧
        ∀ n, conn (self (get_live_logs n σ').2) = Some c ∧
             connects (trace (get_live_logs n σ').2) = connects (trace σ')) ∧
  (∃ tr, trace (capture_pass σ0).2 =
           trace σ0 ++ EConnect (zk_connect (tick σ0) (ip (self σ0))) :: tr).
Proof.
  intros Hc0 H σ'. pose proof (capture_pass_fault σ σ1 e H) as Hpass.
  split; [done|]. split.
  - destruct (capture_body_fault_session σ σ1 e H) as [c Hc]. exists c.
    assert (conn (self σ') = Some c) as Hc'.
    { subst σ'. by rewrite Hpass. }
    split; [done|]. split.
    + destruct (capture_pass_connected σ' c Hc') as (_ & _ & tr & Htr & Hco & _).
      by exists tr.
    + intros n. destruct (get_live_logs_connected n σ' c Hc')
        as (_ & (_ & _ & _ & _ & Hcn) & Hco).
      split; [congruence|done].
  - destruct (capture_pass_unconnected σ0 Hc0) as (_ & _ & _ & _ & _ & _ & tr & Htr & _).
    by exists tr.
Qed.

(** ** The status attribute *)

Lemma process_failed_logs_self (σ : State) : self (process_failed_logs σ).2 = self σ.
Proof.
  destruct (file σ) as [| | |s] eqn:Hfile;
    try (by rewrite process_failed_logs_no_snapshot, Hfile).
  destruct (s !! ip (self σ)) as [logs|] eqn:Hkey.
  - rewrite (process_failed_logs_snapshot σ s logs Hfile Hkey).
    pose proof (retry_all_keeps logs σ) as [Hs _].
    destruct (retry_all logs σ) as [[ok|e] σ1]; simpl in *; [|done].
    by destruct (remove_each ok logs).
  - by rewrite (process_failed_logs_no_key σ s Hfile Hkey).
Qed.

Lemma status_after_app (attempts1 attempts2 : list (option Session)) (s : string) :
  status_after (attempts1 ++ attempts2) s = status_after attempts2 (status_after attempts1 s).
Proof. unfold status_after. rewrite last_app. by destruct (last attempts2) as [[c|]|]. Qed.

(** A pass moves the status only by calling [connect]. *)
Lemma capture_pass_status (σ : State) :
  (capture_pass σ).1 = Ret tt ∧
  ∃ tr, trace (capture_pass σ).2 = trace σ ++ tr ∧
        status (self (capture_pass σ).2) = status_after (connects tr) (status (self σ)).
Proof.
  destruct (conn (self σ)) as [c|] eqn:Hc.
  - destruct (capture_pass_connected σ c Hc)
      as (Hret & (_ & _ & _ & Hst & _) & tr & Htr & Hco & _).
    split; [done|]. exists (ECapture c :: tr). split; [done|].
    by rewrite Hst; simpl; rewrite Hco.
  - destruct (capture_pass_unconnected σ Hc) as (Hret & _ & Hst & _ & _ & _ & tr & Htr & Hco & _).
    split; [done|]. eexists. split; [exact Htr|].
    rewrite Hst. simpl. rewrite Hco. by destruct (zk_connect _ _).
Qed.

Lemma get_live_logs_status (n : nat) (σ : State) :
  ∃ tr, trace (get_live_logs n σ).2 = trace σ ++ tr ∧
        status (self (get_live_logs n σ).2) = status_after (connects tr) (status (self σ)).
Proof.
  revert σ. induction n as [|n IH]; intros σ; simpl.
  - exists []. by rewrite app_nil_r.
  - rewrite bind_run. destruct (capture_pass_status σ) as (Hret & tr1 & Htr1 & Hst1).
    destruct (capture_pass σ) as [[[]|e] σ1]; simpl in *; [|done].
    destruct (IH σ1) as (tr2 & Htr2 & Hst2).
    exists (tr1 ++ tr2). rewrite Htr2, Htr1, app_assoc. split; [done|].
    by rewrite Hst2, Hst1, connects_app, status_after_app.
Qed.

(** C7 (as amended): the status starts at the value given in the device's
    configuration; [connect] sets it to Connected when the driver connects
    and to Connection Failed otherwise, whatever it was; [disconnect] sets it
    to Disconnected when a session object is there and the driver returns;
    the capture loop changes it through [connect] only: after any number of
    passes the status is the outcome of the last [connect] call of those
    passes, and what it was when they made none; the other methods leave it;
    nothing ever sets a Connecting status. *)
Theorem status_mutations (device_data : DeviceData) (m : Method) (σ : State) :
  let s := status (self σ) in
  let s' := status (self (call m σ).2) in
  status (init device_data) = cfg_status device_data ∧
  match m with
  | Connect =>
      s' = match zk_connect (tick σ) (ip (self σ)) with
           | Some _ => "Connected"
           | None => "Connection Failed"
           end
  | Disconnect =>
      s' = match conn (self σ) with
           | Some c => if zk_disconnect (tick σ) c then "Disconnected" else s
           | None => s
           end
  | GetLiveLogs _ =>
      ∃ tr, trace (call m σ).2 = trace σ ++ tr ∧ s' = status_after (connects tr) s
  | SendLogToApi _ | StoreFailedLog _ _ | ProcessFailedLogs => s' = s
  end ∧
  (s' = "Connecting" → s = "Connecting").
Proof.
  cbv zeta. split; [done|].
  destruct m as [|n|a|t a| |]; simpl.
  - rewrite bind_run, connect_run.
    destruct (zk_connect _ _); simpl; (split; [done|]); done.
  - destruct (get_live_logs_status n σ) as (tr & Htr & Hst). split; [by exists tr|].
    rewrite Hst. unfold status_after. by destruct (last (connects tr)) as [[c|]|].
  - rewrite bind_run, send_log_to_api_run.
    destruct (api_fields a) as [[[u t] s]|]; simpl; by split.
  - rewrite store_failed_log_run. cbv zeta.
    destruct (file σ); try destruct (dict_json a); simpl; by split.
  - rewrite process_failed_logs_self. by split.
  - rewrite disconnect_run. destruct (conn (self σ)) as [c|]; [|by split].
    destruct (zk_disconnect _ _); simpl; by split.
Qed.

(** C10 (as amended): [disconnect] does nothing when [self.conn] is unset.
    With a session object and a driver whose [disconnect] returns, one call
    closes the session and sets the status to Disconnected; the object stays
    in [self.conn], so a second call leaves the device as the first did and
    closes the same session once more. *)
Theorem disconnect_is_repeated (σ0 σ : State) (c : Session) :
  conn (self σ0) = None →
  conn (self σ) = Some c →
  zk_disconnect (tick σ) c = true →
  zk_disconnect (S (tick σ)) c = true →
  let σ1 := (disconnect σ).2 in
  let σ2 := (disconnect σ1).2 in
  disconnect σ0 = (Ret tt, σ0) ∧
  (disconnect σ).1 = Ret tt ∧
  self σ1 = set_status "Disconnected" (self σ) ∧
  closes (trace σ1) = closes (trace σ) ++ [c] ∧
  (disconnect σ1).1 = Ret tt ∧
  self σ2 = self σ1 ∧
  closes (trace σ2) = closes (trace σ) ++ [c; c].
Proof.
  intros H0 Hc Hd1 Hd2. cbv zeta.
  split; [by rewrite disconnect_run, H0|].
  rewrite (disconnect_run σ), Hc, Hd1. simpl.
  split; [done|]. split; [done|].
  split; [by rewrite !closes_app; simpl; rewrite app_nil_r|].
  rewrite disconnect_run. simpl. rewrite Hc, Hd2. simpl.
  split; [done|]. split; [done|].
  rewrite !closes_app. simpl. by rewrite !app_nil_r, <- app_assoc.
Qed.

End Properties.

(** * Scenarios *)

(** ** A terminal that connects and an endpoint that accepts *)

Section InTheLab.
#[local] Existing Instance lab.

Lemma send_log_to_api_only_200_witness :
  api_fields punch7 = Some ("7", "2024-01-01 09:00:00", 1%Z) ∧
  let σ := lab_start in
  let data := mkPayload 1 "7" "2024-01-01 09:00:00" 1 in
  ((send_log_to_api punch7 σ).1 = Ret true ∨ (send_log_to_api punch7 σ).1 = Ret false) ∧
  ((send_log_to_api punch7 σ).1 = Ret true ↔
     ∃ text, requests_post 0 data = Response 200 text) ∧
  ((send_log_to_api punch7 σ).1 = Ret false ↔
     requests_post 0 data = TransportError ∨
     ∃ code text, requests_post 0 data = Response code text ∧ code ≠ 200%Z) ∧
  posts (trace (send_log_to_api punch7 σ).2) = posts (trace σ) ++ [(data, requests_post 0 data)].
Proof.
  split; [reflexivity|].
  apply (send_log_to_api_only_200 (Ext := lab) punch7 "7" "2024-01-01 09:00:00" 1 lab_start).
  reflexivity.
Defined.

Lemma sweep_skips_bad_snapshot_witness :
  (file lab_malformed = Malformed ∨ file lab_malformed = Unreadable) ∧
  ∃ line,
    process_failed_logs lab_malformed =
      (Ret tt, mkState (self lab_malformed) (file lab_malformed) (tick lab_malformed)
                 (trace lab_malformed ++ [ELog ERROR line])) ∧
    writes (trace (process_failed_logs lab_malformed).2) = writes (trace lab_malformed) ∧
    ∀ key, pending (file (process_failed_logs lab_malformed).2) key
           = pending (file lab_malformed) key.
Proof.
  split; [by left|]. apply (sweep_skips_bad_snapshot lab_malformed). by left.
Defined.

Lemma sweep_without_key_is_noop_witness :
  (file lab_other_key = Absent ∨
   ∃ s : Store, file lab_other_key = Snapshot s ∧ s !! ip (self lab_other_key) = None) ∧
  process_failed_logs lab_other_key = (Ret tt, lab_other_key).
Proof.
  assert (file lab_other_key = Absent ∨
          ∃ s : Store, file lab_other_key = Snapshot s ∧ s !! ip (self lab_other_key) = None)
    as H.
  { right. eexists. split; reflexivity. }
  split; [exact H|]. apply (sweep_without_key_is_noop lab_other_key H).
Defined.

(** C5 (counterexample): the device's key is there with an empty list, so
    the device has no pending record; the sweep deletes the key and writes
    the file. *)
Lemma sweep_rewrites_empty_list :
  pending (file lab_empty_list) (ip (self lab_empty_list)) = [] ∧
  file (process_failed_logs lab_empty_list).2 = Snapshot ∅ ∧
  file (process_failed_logs lab_empty_list).2 ≠ file lab_empty_list ∧
  writes (trace (process_failed_logs lab_empty_list).2) = [Some ∅].
Proof.
  split; [reflexivity|]. split; [reflexivity|]. split; [|reflexivity].
  intros H. apply (f_equal (λ f, store_of f !! "192.168.1.201")) in H.
  vm_compute in H. discriminate H.
Qed.

(** C7 (counterexample): a device configured as Disconnected is Connected
    right after [connect], which is not an edge of the specified cycle. *)
Lemma connect_skips_connecting :
  status (self lab_start) = "Disconnected" ∧
  status (self (connect lab_start).2) = "Connected" ∧
  ¬ spec_edge "Disconnected" "Connected".
Proof.
  split; [reflexivity|]. split; [reflexivity|]. intros H. inversion H.
Qed.

Lemma disconnect_is_repeated_witness :
  conn (self lab_start) = None ∧
  conn (self lab_connected) = Some 1 ∧
  zk_disconnect (tick lab_connected) 1 = true ∧
  zk_disconnect (S (tick lab_connected)) 1 = true ∧
  let σ1 := (disconnect lab_connected).2 in
  let σ2 := (disconnect σ1).2 in
  disconnect lab_start = (Ret tt, lab_start) ∧
  (disconnect lab_connected).1 = Ret tt ∧
  self σ1 = set_status "Disconnected" (self lab_connected) ∧
  closes (trace σ1) = closes (trace lab_connected) ++ [1] ∧
  (disconnect σ1).1 = Ret tt ∧
  self σ2 = self σ1 ∧
  closes (trace σ2) = closes (trace lab_connected) ++ [1; 1].
Proof.
  repeat (split; [reflexivity|]).
  apply (disconnect_is_repeated lab_start lab_connected 1); reflexivity.
Defined.

(** C10 (counterexample): a second call of [disconnect] on a session that
    is already disconnected closes the same driver session again. *)
Lemma disconnect_closes_twice :
  status (self (disconnect lab_connected).2) = "Disconnected" ∧
  closes (trace (disconnect lab_connected).2) = [1] ∧
  closes (trace (disconnect (disconnect lab_connected).2).2) = [1; 1].
Proof. repeat split; reflexivity. Qed.


(** A batch of an unknown object, a [None] and a punch: one warning, then
    one request for the punch. *)
Example batch_in_the_lab :
  trace (for_logs [ROther "heartbeat"; RNone; RAttendance punch7] false lab_connected).2 =
    trace lab_connected ++
    [ELog WARNING (UnknownLogType "heartbeat");
     EPost (mkPayload 1 "7" "2024-01-01 09:00:00" 1) (Response 200 "OK");
     ELog INFO (SentToApi (mkPayload 1 "7" "2024-01-01 09:00:00" 1))].
Proof. reflexivity. Qed.

End InTheLab.

(** ** An endpoint that answers 201 *)

Section Created.
#[local] Existing Instance created.

(** C8 (counterexample): the endpoint answers 201, a 2xx status, and
    [send_log_to_api] returns [False]. *)
Lemma send_log_to_api_rejects_201 :
  requests_post 0 (mkPayload 1 "7" "2024-01-01 09:00:00" 1) = Response 201 "Created" ∧
  (200 ≤ 201 < 300)%Z ∧
  (send_log_to_api punch7 created_start).1 = Ret false.
Proof. split; [reflexivity|]. split; [lia|]. reflexivity. Qed.

End Created.

(** ** An endpoint that is down when the punch is captured *)

Section Outage.
#[local] Existing Instance outage.

(** C1 (failing input): device D1 captures a punch while the endpoint
    answers 500 and there is no store file.  The request is refused, and the
    enqueue opens the file for writing before [json.dump] raises on the
    [datetime] of the punch: the event is in no store and the file is left
    undecodable.  The next sweep, with the endpoint up again, skips the file
    and sends nothing: the event is not delivered. *)
Theorem refused_event_is_lost :
  let data := mkPayload 1 "7" "2024-01-01 09:00:00" 1 in
  let σ1 := (handle_log (RAttendance punch7) outage_start).2 in
  let σ2 := (process_failed_logs σ1).2 in
  file outage_start = Absent ∧
  api_fields punch7 = Some ("7", "2024-01-01 09:00:00", 1%Z) ∧
  dict_json punch7 = None ∧
  (handle_log (RAttendance punch7) outage_start).1 = Ret tt ∧
  posts (trace σ1) = [(data, Response 500 "Server Error")] ∧
  writes (trace σ1) = [None] ∧
  last (trace σ1) = Some (ELog ERROR (StoreFailed TypeError)) ∧
  file σ1 = Malformed ∧
  (∀ key, pending (file σ1) key = []) ∧
  requests_post (tick σ1) data = Response 200 "OK" ∧
  (process_failed_logs σ1).1 = Ret tt ∧
  posts (trace σ2) = posts (trace σ1) ∧
  file σ2 = Malformed.
Proof. repeat split; reflexivity. Qed.

End Outage.

(** ** Pending records and an endpoint that would accept the second request *)

Section Window.
#[local] Existing Instance window.

(** C3 (failing input): D1's pending list is [R1; R2; R3] and the endpoint
    would accept the second request of the sweep.  The constructor keeps the
    str that [json.load] gave for the [timestamp] of R1, and [strftime]
    raises in the first retry: the sweep logs the error and returns, having
    sent no request and written nothing, and the list is still
    [R1; R2; R3]. *)
Theorem sweep_stops_at_first_record :
  let σ' := (process_failed_logs window_start).2 in
  pending (file window_start) "192.168.1.201" = [R1; R2; R3] ∧
  Attendance_init (log R1) = Some (as_text punch7) ∧
  api_fields (as_text punch7) = None ∧
  retry R1 window_start = (Raise AttributeError, window_start) ∧
  process_failed_logs window_start =
    (Ret tt, mkState (self window_start) (file window_start) (tick window_start)
               [ELog ERROR (ProcessingError AttributeError)]) ∧
  posts (trace σ') = [] ∧
  writes (trace σ') = [] ∧
  pending (file σ') "192.168.1.201" = [R1; R2; R3] ∧
  pending (file σ') "192.168.1.201" ≠ [R1; R3].
Proof. repeat split; try reflexivity. discriminate. Qed.

(** The removal loop takes the first record equal to a delivered one: had
    the retries of [R1; R2; R1] returned False, False and True, the list
    written back would be [R2; R1]. *)
Example removal_takes_the_first_equal_record :
  remove_each [R1] [R1; R2; R1] = Some [R2; R1].
Proof. reflexivity. Qed.

End Window.

(** ** Punches that [json.dump] cannot encode *)

Section Field.
#[local] Existing Instance field.

(** C6 (failing input): device D1 enqueues a punch whose attributes
    [json.dump] cannot encode while the store holds a record of device D2.
    The file was opened for writing before the encoder raised: it is left
    truncated, and D2's record is lost. *)
Theorem enqueue_failure_wipes_other_device :
  let σ' := (store_failed_log "2024-01-01 09:00:00" punch7 field_start).2 in
  ip (self field_start) ≠ "192.168.1.202" ∧
  dict_json punch7 = None ∧
  pending (file field_start) "192.168.1.202"
    = [mkFailed "2024-01-01 08:00:00" (as_text punch8)] ∧
  (store_failed_log "2024-01-01 09:00:00" punch7 field_start).1 = Ret tt ∧
  file σ' = Malformed ∧
  pending (file σ') "192.168.1.202" = [] ∧
  trace σ' = [EWrite None; ELog ERROR (StoreFailed TypeError)].
Proof. split; [discriminate|]. repeat split; reflexivity. Qed.

End Field.

(** ** A terminal whose stream breaks *)

Section BrokenStream.
#[local] Existing Instance broken_stream.

Lemma fault_keeps_session_witness :
  conn (self broken_start) = None ∧
  capture_body broken_start = (Raise DriverError, broken_fault) ∧
  let σ' := (capture_pass broken_start).2 in
  capture_pass broken_start =
    (Ret tt, mkState (self broken_fault) (file broken_fault) (tick broken_fault)
               (trace broken_fault ++
                [ELog ERROR (LiveLogError (name (self broken_fault)) DriverError); ESleep 10])) ∧
  (∃ c, conn (self σ') = Some c ∧
        (∃ tr, trace (capture_pass σ').2 = trace σ' ++ ECapture c :: tr ∧ connects tr = []) ∧
        ∀ n, conn (self (get_live_logs n σ').2) = Some c ∧
             connects (trace (get_live_logs n σ').2) = connects (trace σ')) ∧
  (∃ tr, trace (capture_pass broken_start).2 =
           trace broken_start ++
           EConnect (zk_connect (tick broken_start) (ip (self broken_start))) :: tr).
Proof.
  split; [reflexivity|]. split; [reflexivity|].
  apply (fault_keeps_session (Ext := broken_stream) broken_start broken_start broken_fault
           DriverError); reflexivity.
Defined.

(** C2 (counterexample): the first pass connects and the stream breaks; the
    fault is logged and followed by a sleep of 10 seconds; the next pass
    does not call [connect], it calls [live_capture] on the broken session. *)
Lemma no_reconnect_after_fault :
  let σ1 := (capture_pass broken_start).2 in
  trace σ1 = [EConnect (Some 1); ELog INFO (ConnectedTo "D1" "192.168.1.201");
              ECapture 1; ELog ERROR (LiveLogError "D1" DriverError); ESleep 10] ∧
  trace (capture_pass σ1).2 =
    trace σ1 ++ [ECapture 1; ELog ERROR (LiveLogError "D1" DriverError); ESleep 10] ∧
  connects (trace (capture_pass σ1).2) = [Some 1].
Proof. repeat split; reflexivity. Qed.

End BrokenStream.

(** ** A terminal that refuses a second [disconnect] *)

Section StrictDriver.
#[local] Existing Instance strict_driver.

(** With such a terminal the second call of [disconnect] raises. *)
Lemma second_disconnect_raises :
  (disconnect strict_connected).1 = Ret tt ∧
  (disconnect (disconnect strict_connected).2).1 = Raise DriverError.
Proof. split; reflexivity. Qed.

End StrictDriver.

(** ** The imported class, whatever the terminal and the endpoint do *)

Section ImportedClass.
Variable connect_script : nat → option Session.
Variable capture_script : nat → Capture Punch.
Variable disconnect_script : nat → bool.
Variable post_script : nat → HttpResult.

Local Abbreviation E := (double connect_script capture_script disconnect_script post_script).

(** A punch that [send_log_to_api] can format has a [datetime], which
    [json.dump] cannot encode: the enqueue of such a punch always fails,
    leaving the file truncated. *)
Lemma sent_punch_cannot_be_stored (a : Punch) (t : string) (σ : @State E) :
  is_Some (api_fields (Externals := E) a) →
  file σ = Absent ∨ (∃ s, file σ = Snapshot s) →
  dict_json (Externals := E) a = None ∧
  file (store_failed_log (Ext := E) t a σ).2 = Malformed.
Proof.
  intros [x Hx] Hfile. simpl in Hx.
  assert (dict_json (Externals := E) a = None) as Hd.
  { simpl. by destruct (punch_time a). }
  split; [done|]. rewrite store_failed_log_run. cbv zeta. rewrite Hd.
  by destruct Hfile as [->|[s ->]].
Qed.

(** A record read back from the file has its timestamp as text, which has
    no [strftime]: the retry raises, the sweep stops at the first record,
    sends nothing and removes nothing. *)
Lemma stored_record_cannot_be_retried (r : @FailedRecord E) (logs : list (@FailedRecord E))
    (s : gmap string (list (@FailedRecord E))) (σ : @State E) :
  (∃ text, punch_time (log r) = Text text) →
  file σ = Snapshot s →
  s !! ip (self σ) = Some (r :: logs) →
  process_failed_logs σ =
    (Ret tt, mkState (self σ) (file σ) (tick σ)
               (trace σ ++ [ELog ERROR (ProcessingError AttributeError)])).
Proof.
  intros [text Htext] Hfile Hkey.
  rewrite (process_failed_logs_snapshot σ s (r :: logs) Hfile Hkey). simpl.
  rewrite bind_run. unfold retry. simpl. rewrite send_log_to_api_run. simpl.
  by rewrite Htext.
Qed.

End ImportedClass.

(** * Further properties *)

Section FurtherProperties.
Context `{Ext : Externals}.

(** ** What sending and storing do to the outside *)

Lemma slept_app (tr1 tr2 : list Effect) : slept (tr1 ++ tr2) = slept tr1 + slept tr2.
Proof. unfold slept. by rewrite omap_app, sum_list_with_app. Qed.

Lemma io_quiet (tr : list Effect) :
  Forall is_io tr → slept tr = 0 ∧ connects tr = [] ∧ closes tr = [].
Proof.
  induction 1 as [|e tr He _ (IH1 & IH2 & IH3)]; [done|].
  destruct e; try done; simpl in *; rewrite ?IH1, ?IH2, ?IH3; done.
Qed.

Lemma only_io_refl (σ : State) : only_io σ σ.
Proof. exists []. by rewrite app_nil_r. Qed.

Lemma only_io_trans (σ1 σ2 σ3 : State) : only_io σ1 σ2 → only_io σ2 σ3 → only_io σ1 σ3.
Proof.
  intros (tr1 & H1 & F1) (tr2 & H2 & F2). exists (tr1 ++ tr2).
  rewrite H2, H1, app_assoc. split; [done|]. by apply Forall_app.
Qed.

Lemma send_log_to_api_io (a : Attendance) (σ : State) : only_io σ (send_log_to_api a σ).2.
Proof.
  rewrite send_log_to_api_run.
  destruct (api_fields a) as [[[u t] s]|]; [|apply only_io_refl].
  cbv zeta. simpl. eexists. rewrite <- app_assoc. split; [done|].
  repeat constructor.
  destruct (requests_post _ _) as [code text|]; [destruct (decide (code = 200%Z))|]; done.
Qed.

(** [store_failed_log] never raises: whatever goes wrong is logged. *)
Lemma store_failed_log_returns (t : string) (a : Attendance) (σ : State) :
  (store_failed_log t a σ).1 = Ret tt.
Proof.
  rewrite store_failed_log_run. cbv zeta.
  destruct (file σ); try done; by destruct (dict_json a).
Qed.

Lemma store_failed_log_io (t : string) (a : Attendance) (σ : State) :
  only_io σ (store_failed_log t a σ).2.
Proof.
  rewrite store_failed_log_run. cbv zeta.
  destruct (file σ); [destruct (dict_json a)| | |destruct (dict_json a)]; simpl;
    eexists; rewrite <- ?app_assoc; (split; [done|]); repeat constructor.
Qed.

Lemma store_failed_log_self (t : string) (a : Attendance) (σ : State) :
  self (store_failed_log t a σ).2 = self σ ∧ tick (store_failed_log t a σ).2 = tick σ.
Proof.
  rewrite store_failed_log_run. cbv zeta.
  destruct (file σ); try done; by destruct (dict_json a).
Qed.

Lemma handle_log_io (item : Raw Attendance) (σ : State) : only_io σ (handle_log item σ).2.
Proof.
  destruct item as [|a|repr].
  - apply only_io_refl.
  - rewrite handle_log_attendance. cbv zeta.
    set (σa := mkState _ (file σ) (S (tick σ)) (trace σ)).
    assert (only_io σ σa) as H0.
    { exists []. by rewrite app_nil_r. }
    pose proof (send_log_to_api_io a σa) as H1.
    destruct (send_log_to_api a σa) as [[[|]|e] σb]; simpl in H1.
    + by apply (only_io_trans σ σa).
    + apply (only_io_trans σ σb); [by apply (only_io_trans σ σa)|].
      apply store_failed_log_io.
    + by apply (only_io_trans σ σa).
  - simpl. eexists. split; [done|]. by repeat constructor.
Qed.

Lemma for_logs_io (items : list (Raw Attendance)) (b : bool) (σ : State) :
  only_io σ (for_logs items b σ).2.
Proof.
  revert b σ. induction items as [|item items IH]; intros b σ; [apply only_io_refl|].
  rewrite for_logs_cons. destruct item as [|a|repr]; [apply IH| |].
  - pose proof (handle_log_io (RAttendance a) σ) as H.
    destruct (handle_log (RAttendance a) σ) as [[[]|e] σ1]; simpl in H; [|done].
    by apply (only_io_trans σ σ1).
  - pose proof (handle_log_io (ROther repr : Raw Attendance) σ) as H.
    destruct (handle_log (ROther repr) σ) as [[[]|e] σ1]; simpl in H; [|done].
    by apply (only_io_trans σ σ1).
Qed.

(** ** When the capture loop sleeps *)

Lemma capture_pass_slept (σ : State) :
  (capture_pass σ).1 = Ret tt ∧
  ∃ tr, trace (capture_pass σ).2 = trace σ ++ tr ∧
        (slept tr = 1 ∨ slept tr = 2 ∨ slept tr = 10).
Proof.
  assert (∀ σ c, conn (self σ) = Some c →
            (capture_pass σ).1 = Ret tt ∧
            ∃ tr, trace (capture_pass σ).2 = trace σ ++ tr ∧
                  (slept tr = 1 ∨ slept tr = 2 ∨ slept tr = 10)) as Hconn.
  { clear σ. intros σ c Hc. unfold capture_pass, try_except.
    rewrite (capture_body_connected σ c Hc). cbv zeta.
    set (σ1 := mkState (self σ) (file σ) (S (tick σ)) (trace σ ++ [ECapture c])).
    destruct (zk_live_capture (tick σ) c) as [| |items fin]; simpl.
    - split; [done|]. eexists. rewrite <- !app_assoc. split; [done|]. by right; right.
    - split; [done|]. eexists. rewrite <- !app_assoc. split; [done|]. by left.
    - destruct (for_logs_io items false σ1) as (tr & Htr & Hio).
      destruct (io_quiet tr Hio) as (Hs & _ & _).
      destruct (for_logs items false σ1) as [[captured|e] σ2]; simpl in *.
      + destruct fin; [destruct captured|]; simpl; (split; [done|]);
          rewrite Htr, <- !app_assoc; eexists; (split; [done|]);
          rewrite !slept_app, Hs; simpl; [by left|by right; left|by right; right].
      + split; [done|]. rewrite Htr, <- !app_assoc. eexists. split; [done|].
        rewrite !slept_app, Hs. by right; right. }
  destruct (conn (self σ)) as [c|] eqn:Hc; [by apply (Hconn σ c)|].
  unfold capture_pass, try_except.
  rewrite (capture_body_unconnected σ Hc), connect_run.
  destruct (zk_connect (tick σ) (ip (self σ))) as [c|].
  - set (σ0 := mkState _ (file σ) (S (tick σ)) _).
    destruct (Hconn σ0 c eq_refl) as (Hret & tr & Htr & Hs).
    unfold capture_pass, try_except in Hret, Htr.
    split; [exact Hret|]. rewrite Htr. subst σ0. simpl.
    rewrite <- !app_assoc. eexists. split; [done|].
    rewrite !slept_app. simpl. exact Hs.
  - simpl. split; [done|]. rewrite <- !app_assoc. eexists. split; [done|]. by right; right.
Qed.

(** X1: the [for] loop over a batch never sleeps, however many objects the
    generator yields: a pass sleeps only once its generator has stopped or
    raised, so that a generator that never stops keeps its pass from sleeping
    and from ending.  A pass whose generator ends leaves no exception to its
    caller and sleeps 1, 2 or 10 seconds in all: [n] such passes return after
    a total sleep between [n] and [10 * n] seconds. *)
Theorem capture_loop_sleeps_after_each_batch (n : nat) (items : list (Raw Attendance))
    (b : bool) (σ : State) :
  (∃ tr, trace (for_logs items b σ).2 = trace σ ++ tr ∧ slept tr = 0) ∧
  (get_live_logs n σ).1 = Ret tt ∧
  ∃ tr, trace (get_live_logs n σ).2 = trace σ ++ tr ∧
        (n ≤ slept tr ≤ 10 * n)%nat ∧
        (n = 1 → slept tr = 1 ∨ slept tr = 2 ∨ slept tr = 10).
Proof.
  split.
  { destruct (for_logs_io items b σ) as (tr & Htr & Hio). exists tr. split; [done|].
    by destruct (io_quiet tr Hio) as (Hs & _). }
  assert ((get_live_logs n σ).1 = Ret tt ∧
          ∃ tr, trace (get_live_logs n σ).2 = trace σ ++ tr ∧ (n ≤ slept tr ≤ 10 * n)%nat) as H.
  { clear items b. revert σ. induction n as [|n IH]; intros σ.
    - simpl. split; [done|]. exists []. rewrite app_nil_r. split; [done|].
      change (slept []) with 0. lia.
    - simpl. rewrite bind_run.
      destruct (capture_pass_slept σ) as (Hret & tr1 & Htr1 & Hs1).
      destruct (capture_pass σ) as [[[]|e] σ1]; simpl in *; [|done].
      destruct (IH σ1) as (Hret' & tr2 & Htr2 & Hs2).
      split; [done|]. exists (tr1 ++ tr2). rewrite Htr2, Htr1, app_assoc.
      split; [done|]. rewrite slept_app. lia. }
  destruct H as (Hret & tr & Htr & Hs). split; [done|]. exists tr.
  split; [done|]. split; [done|]. intros ->.
  destruct (capture_pass_slept σ) as (Hret1 & tr1 & Htr1 & Hs1).
  simpl in Htr. rewrite bind_run in Htr.
  destruct (capture_pass σ) as [[[]|e] σ1]; simpl in *; [|done].
  rewrite Htr1 in Htr. apply app_inv_head in Htr. by subst.
Qed.

(** ** The order of requests *)

Lemma batch_payloads_id (d d' : ZKTecoDevice) (items : list (Raw Attendance)) :
  id d' = id d → batch_payloads d' items = batch_payloads d items.
Proof. intros H. unfold batch_payloads. by rewrite H. Qed.

Lemma store_failed_log_posts (t : string) (a : Attendance) (σ : State) :
  posts (trace (store_failed_log t a σ).2) = posts (trace σ).
Proof.
  rewrite store_failed_log_run. cbv zeta.
  destruct (file σ); [destruct (dict_json a)| | |destruct (dict_json a)]; simpl;
    rewrite !posts_app; simpl; by rewrite ?app_nil_r.
Qed.

(** One captured event whose attributes can be read: one request, and the
    loop goes on whatever the answer and whatever the state of the store. *)
Lemma handle_log_sends (a : Attendance) (u t : string) (s : Z) (σ : State) :
  api_fields a = Some (u, t, s) →
  (handle_log (RAttendance a) σ).1 = Ret tt ∧
  id (self (handle_log (RAttendance a) σ).2) = id (self σ) ∧
  ∃ r, posts (trace (handle_log (RAttendance a) σ).2) =
         posts (trace σ) ++ [(mkPayload (id (self σ)) u t s, r)].
Proof.
  intros Hf. rewrite handle_log_attendance. cbv zeta. rewrite send_log_to_api_run, Hf.
  cbv zeta. simpl.
  set (data := mkPayload (id (self σ)) u t s).
  set (r := requests_post (S (tick σ)) data).
  assert (∀ line, posts ((trace σ ++ [EPost data r]) ++ [ELog ERROR line])
                  = posts (trace σ) ++ [(data, r)]) as Hp.
  { intros line. rewrite !posts_app. simpl. by rewrite app_nil_r. }
  destruct r as [code text|] eqn:Hr; simpl.
  - destruct (decide (code = 200%Z)) as [->|Hne].
    + simpl. split; [done|]. split; [done|]. eexists.
      rewrite !posts_app. simpl. by rewrite app_nil_r.
    + rewrite bool_decide_eq_false_2 by done.
      split; [apply store_failed_log_returns|].
      split; [by rewrite (proj1 (store_failed_log_self _ _ _))|].
      eexists. rewrite store_failed_log_posts. simpl. by rewrite Hp.
  - split; [apply store_failed_log_returns|].
    split; [by rewrite (proj1 (store_failed_log_self _ _ _))|].
    eexists. rewrite store_failed_log_posts. simpl. by rewrite Hp.
Qed.

(** X2: when the attributes of every [Attendance] of a batch can be read,
    the loop sends exactly one request per [Attendance], in the order in
    which the driver yielded them, whatever the endpoint answers and
    whatever the state of the store; it ends normally, with [logs_captured]
    set when the batch held an object other than [None]. *)
Theorem batch_requests_in_order (items : list (Raw Attendance)) (b : bool) (σ : State) :
  (∀ a, RAttendance a ∈ items → is_Some (api_fields a)) →
  (for_logs items b σ).1 = Ret (b || captures items) ∧
  ∃ ps, posts (trace (for_logs items b σ).2) = posts (trace σ) ++ ps ∧
        ps.*1 = batch_payloads (self σ) items.
Proof.
  revert b σ. induction items as [|item items IH]; intros b σ Hall.
  - simpl. rewrite orb_false_r. split; [done|]. exists []. by rewrite app_nil_r.
  - assert (∀ a, RAttendance a ∈ items → is_Some (api_fields a)) as Hall'.
    { intros a Hin. apply Hall. by right. }
    rewrite for_logs_cons. destruct item as [|a|repr].
    + destruct (IH b σ Hall') as (Hret & ps & Hps & Hpay). split; [done|]. by exists ps.
    + destruct (Hall a) as [[[u t] s] Hf]; [by left|].
      destruct (handle_log_sends a u t s σ Hf) as (Hret & Hid & r & Hp).
      destruct (handle_log (RAttendance a) σ) as [[[]|e] σ1]; simpl in *; [|done].
      destruct (IH true σ1 Hall') as (Hret' & ps & Hps & Hpay).
      split; [by rewrite Hret', orb_true_r|].
      exists ((mkPayload (id (self σ)) u t s, r) :: ps).
      rewrite Hps, Hp, <- app_assoc. split; [done|].
      rewrite fmap_cons, Hpay, (batch_payloads_id (self σ) (self σ1)) by done.
      unfold batch_payloads at 2. simpl. by rewrite Hf.
    + simpl. destruct (IH true (mkState (self σ) (file σ) (tick σ)
                                 (trace σ ++ [ELog WARNING (UnknownLogType repr)])) Hall')
        as (Hret' & ps & Hps & Hpay).
      split; [by rewrite Hret', orb_true_r|].
      exists ps. rewrite Hps. simpl. rewrite posts_app. simpl. by rewrite app_nil_r.
Qed.

(** ** A sweep that stops half-way *)

(** A retry raises before it sends anything. *)
Lemma retry_Raise (r : FailedRecord) (σ σ' : State) (e : PyExn) :
  retry r σ = (Raise e, σ') → σ' = σ ∧ payload_of (self σ) r = None.
Proof.
  unfold retry, payload_of. destruct (Attendance_init (log r)) as [a|]; simpl.
  - rewrite send_log_to_api_run. destruct (api_fields a) as [[[u t] s]|]; simpl; [done|].
    by intros [= _ <-].
  - unfold raise. by intros [= _ <-].
Qed.

Lemma retry_all_aborts (σ σ1 σ2 : State) (pre rest : list FailedRecord) (r : FailedRecord)
    (outs : list bool) (e : PyExn) :
  retries σ pre outs σ1 → retry r σ1 = (Raise e, σ2) →
  retry_all (pre ++ r :: rest) σ = (Raise e, σ2).
Proof.
  intros Hrs Hr. induction Hrs as [σ|σ r0 b σ0 logs outs σ1 Hr0 Hrs IH]; simpl.
  - by rewrite bind_run, Hr.
  - rewrite bind_run, Hr0, bind_run, (IH Hr). done.
Qed.

(** X4: when the retry of a record raises, the sweep stops there: the
    requests of the records before it were sent, the error is logged, and
    the file is not written, so that every record, delivered or not, is
    still pending. *)
Theorem aborted_sweep_keeps_every_record (σ σ1 σ2 : State) (s : Store)
    (pre rest : list FailedRecord) (r : FailedRecord) (outs : list bool) (e : PyExn) :
  file σ = Snapshot s →
  s !! ip (self σ) = Some (pre ++ r :: rest) →
  retries σ pre outs σ1 →
  retry r σ1 = (Raise e, σ2) →
  process_failed_logs σ =
    (Ret tt, mkState (self σ) (file σ) (tick σ1)
               (trace σ1 ++ [ELog ERROR (ProcessingError e)])) ∧
  pending (file (process_failed_logs σ).2) (ip (self σ)) = pre ++ r :: rest ∧
  writes (trace (process_failed_logs σ).2) = writes (trace σ) ∧
  ∃ ps, posts (trace (process_failed_logs σ).2) = posts (trace σ) ++ ps ∧
        Forall2 (λ r pr, payload_of (self σ) r = Some pr.1) pre ps ∧
        Forall2 (λ b pr, b = accepted pr.2) outs ps.
Proof.
  intros Hfile Hkey Hrs Hr.
  destruct (retry_Raise _ _ _ _ Hr) as [-> _].
  destruct (retries_spec _ _ _ _ Hrs) as (_ & _ & Hself & Hfile1 & _ & Hw & ps & Hps & Hpay & Hacc).
  rewrite (process_failed_logs_snapshot σ s _ Hfile Hkey),
    (retry_all_aborts σ σ1 σ1 pre rest r outs e Hrs Hr), Hself, Hfile1.
  split; [done|]. simpl. rewrite Hfile. simpl. rewrite Hkey. simpl.
  split; [done|]. rewrite writes_app, posts_app, Hw, Hps. simpl. rewrite !app_nil_r.
  split; [done|]. by exists ps.
Qed.


(** ** What every method keeps of the store file *)

(** What the capture loop keeps, given what [store_failed_log] keeps for an
    [Attendance] that was sent: the loop stores no other. *)
Section CaptureInvariant.
Variable P : FileState → Prop.
Hypothesis store_keeps :
  ∀ t a σ, is_Some (api_fields a) → P (file σ) → P (file (store_failed_log t a σ).2).

Lemma handle_log_keeps (item : Raw Attendance) (σ : State) :
  P (file σ) → P (file (handle_log item σ).2).
Proof.
  intros HP. destruct item as [|a|repr]; [done| |done].
  rewrite handle_log_attendance. cbv zeta. rewrite send_log_to_api_run.
  destruct (api_fields a) as [[[u t] s]|] eqn:Ha; [|done]. cbv zeta. simpl.
  destruct (accepted _); [done|]. apply store_keeps; [by rewrite Ha|done].
Qed.

Lemma for_logs_keeps (items : list (Raw Attendance)) (b : bool) (σ : State) :
  P (file σ) → P (file (for_logs items b σ).2).
Proof.
  revert b σ. induction items as [|item items IH]; intros b σ HP; [done|].
  rewrite for_logs_cons. destruct item as [|a|repr]; [by apply IH| |].
  - pose proof (handle_log_keeps (RAttendance a) σ HP) as H.
    destruct (handle_log (RAttendance a) σ) as [[[]|e] σ1]; simpl in H; [|done].
    by apply IH.
  - pose proof (handle_log_keeps (ROther repr) σ HP) as H.
    destruct (handle_log (ROther repr) σ) as [[[]|e] σ1]; simpl in H; [|done].
    by apply IH.
Qed.

Lemma capture_pass_keeps (σ : State) : P (file σ) → P (file (capture_pass σ).2).
Proof.
  assert (∀ σ c, conn (self σ) = Some c → P (file σ) → P (file (capture_pass σ).2)) as Hconn.
  { clear σ. intros σ c Hc HP. unfold capture_pass, try_except.
    rewrite (capture_body_connected σ c Hc). cbv zeta.
    set (σ1 := mkState (self σ) (file σ) (S (tick σ)) (trace σ ++ [ECapture c])).
    destruct (zk_live_capture (tick σ) c) as [| |items fin]; simpl; [done|done|].
    pose proof (for_logs_keeps items false σ1 HP) as H.
    destruct (for_logs items false σ1) as [[captured|e] σ2]; simpl in *; [|done].
    destruct fin; [by destruct captured|done]. }
  intros HP. destruct (conn (self σ)) as [c|] eqn:Hc; [by apply (Hconn σ c)|].
  unfold capture_pass, try_except.
  rewrite (capture_body_unconnected σ Hc), connect_run.
  destruct (zk_connect (tick σ) (ip (self σ))) as [c|]; [|done].
  set (σ0 := mkState _ (file σ) (S (tick σ)) _).
  apply (Hconn σ0 c eq_refl HP).
Qed.

Lemma get_live_logs_keeps (n : nat) (σ : State) :
  P (file σ) → P (file (get_live_logs n σ).2).
Proof.
  revert σ. induction n as [|n IH]; intros σ HP; [done|].
  simpl. rewrite bind_run. pose proof (capture_pass_keeps σ HP) as H.
  destruct (capture_pass σ) as [[[]|e] σ1]; simpl in H; [|done]. by apply IH.
Qed.

End CaptureInvariant.

(** What every method keeps, given what the two methods that write the file
    keep. *)
Section FileInvariant.
Variable P : FileState → Prop.
Hypothesis store_keeps : ∀ t a σ, P (file σ) → P (file (store_failed_log t a σ).2).
Hypothesis sweep_keeps : ∀ σ, P (file σ) → P (file (process_failed_logs σ).2).

Lemma call_keeps (m : Method) (σ : State) : P (file σ) → P (file (call m σ).2).
Proof.
  intros HP. destruct m as [|n|a|t a| |]; simpl.
  - rewrite bind_run, connect_run. by destruct (zk_connect _ _).
  - apply (get_live_logs_keeps P); [|done]. intros t a σ' _. apply store_keeps.
  - rewrite bind_run, send_log_to_api_run. by destruct (api_fields a) as [[[u t] s]|].
  - by apply store_keeps.
  - by apply sweep_keeps.
  - rewrite disconnect_run. destruct (conn (self σ)) as [c|]; [|done].
    by destruct (zk_disconnect _ _).
Qed.

End FileInvariant.

(** X3: with a class whose instances that can be formatted for the request
    cannot be encoded by [json.dump] (the imported one: the [timestamp] of
    such an instance is a [datetime]), the capture loop never adds a record
    to the store.  After any number of passes the store file is as it was,
    or a refused punch has left it undecodable: every pending list is what
    it was or is lost. *)
Theorem capture_loop_never_stores (n : nat) (σ : State) :
  (∀ a, is_Some (api_fields a) → dict_json a = None) →
  (file (get_live_logs n σ).2 = file σ ∨ file (get_live_logs n σ).2 = Malformed) ∧
  ∀ key, pending (file (get_live_logs n σ).2) key `sublist_of` pending (file σ) key.
Proof.
  intros Hcls.
  assert (file (get_live_logs n σ).2 = file σ ∨ file (get_live_logs n σ).2 = Malformed) as H.
  { apply (get_live_logs_keeps (λ f, f = file σ ∨ f = Malformed)); [|by left].
    intros t a σ' Ha HP. rewrite store_failed_log_run. cbv zeta. rewrite (Hcls a Ha).
    destruct (file σ') eqn:Hf; simpl; rewrite ?Hf; [by right|done|by right|by right]. }
  split; [done|]. intros key. destruct H as [-> | ->]; [done|apply sublist_nil_l].
Qed.

(** X7: the methods never leave an empty list under a key of the store:
    an enqueue appends to the list, and a sweep that empties the list removes
    the key. *)
Theorem no_method_leaves_an_empty_list (m : Method) (σ : State) :
  no_empty_list (file σ) → no_empty_list (file (call m σ).2).
Proof.
  apply call_keeps.
  - clear. intros t a σ HP. rewrite store_failed_log_run. cbv zeta.
    assert (∀ st : Store, (∀ key logs, st !! key = Some logs → logs ≠ []) →
              ∀ d, no_empty_list
                     (Snapshot (<[ip (self σ) := default [] (st !! ip (self σ)) ++
                                                 [mkFailed t d]]> st))) as Happ.
    { intros st Hst d s key logs [= <-]. destruct (decide (key = ip (self σ))) as [->|Hne].
      - rewrite lookup_insert_eq. intros [= <-]. by destruct (default [] _).
      - rewrite lookup_insert_ne by done. apply Hst. }
    destruct (file σ) as [| | |st] eqn:Hfile; [destruct (dict_json a)| | |destruct (dict_json a)];
      simpl; rewrite ?Hfile; try done.
    + apply Happ. intros key logs. by rewrite lookup_empty.
    + apply Happ. intros key logs. by apply HP.
  - clear. intros σ HP.
    destruct (file σ) as [| | |s] eqn:Hfile;
      try (rewrite process_failed_logs_no_snapshot, Hfile; simpl; by rewrite ?Hfile).
    destruct (s !! ip (self σ)) as [logs|] eqn:Hkey.
    + rewrite (process_failed_logs_snapshot σ s logs Hfile Hkey).
      pose proof (retry_all_keeps logs σ) as [_ Hf]. rewrite Hfile in Hf.
      destruct (retry_all logs σ) as [[ok|e] σ1]; simpl in *; [|by rewrite Hf].
      destruct (remove_each ok logs) as [logs'|]; simpl; [|by rewrite Hf].
      intros s' key l [= <-]. destruct (decide (length logs' = 0)) as [Hnil|Hnil].
      * destruct (decide (key = ip (self σ))) as [->|Hne].
        -- by rewrite lookup_delete_eq.
        -- rewrite lookup_delete_ne by done. by apply HP.
      * destruct (decide (key = ip (self σ))) as [->|Hne].
        -- rewrite lookup_insert_eq. intros [= <-]. by destruct logs'.
        -- rewrite lookup_insert_ne by done. by apply HP.
    + rewrite (process_failed_logs_no_key σ s Hfile Hkey). simpl. by rewrite Hfile.
Qed.

(** X8: in a store without empty lists, where the file is absent or can be
    read, the sweep of a device that has no pending record does nothing at
    all. *)
Theorem idle_sweep_is_noop (σ : State) :
  no_empty_list (file σ) →
  (file σ = Absent ∨ ∃ s, file σ = Snapshot s) →
  pending (file σ) (ip (self σ)) = [] →
  process_failed_logs σ = (Ret tt, σ).
Proof.
  intros Hinv [Hfile|[s Hfile]] Hpend.
  - by rewrite process_failed_logs_no_snapshot, Hfile.
  - apply (process_failed_logs_no_key σ s Hfile).
    rewrite Hfile in Hpend. simpl in Hpend.
    destruct (s !! ip (self σ)) as [logs|] eqn:Hkey; [|done].
    simpl in Hpend. subst logs. by destruct (Hinv s _ _ Hfile Hkey).
Qed.

(** X9: no method repairs a store file that cannot be read or decoded: it
    stays as it is through every call, and every enqueue made meanwhile is
    logged and dropped. *)
Theorem bad_store_file_is_never_repaired (m : Method) (σ : State) :
  file σ = Malformed ∨ file σ = Unreadable →
  file (call m σ).2 = file σ ∧
  ∀ (t : string) (a : Attendance),
    ∃ e, store_failed_log t a σ =
           (Ret tt, mkState (self σ) (file σ) (tick σ)
                      (trace σ ++ [ELog ERROR (StoreFailed e)])).
Proof.
  intros Hbad. split.
  - apply (call_keeps (λ f, f = file σ)); [| |done].
    + intros t a σ' HP. rewrite store_failed_log_run. cbv zeta. rewrite HP.
      by destruct Hbad as [-> | ->].
    + intros σ' HP. rewrite process_failed_logs_no_snapshot, HP.
      by destruct Hbad as [Hb|Hb]; rewrite Hb.
  - intros t a. rewrite store_failed_log_run. cbv zeta.
    destruct Hbad as [-> | ->]; by eexists.
Qed.

(** ** The module-level code *)

Lemma device_effects_app (evs1 evs2 : list Event) :
  device_effects (evs1 ++ evs2) = device_effects evs1 ++ device_effects evs2.
Proof. apply omap_app. Qed.

Lemma device_effects_map (i : nat) (tr : list Effect) :
  device_effects (map (DeviceDid i) tr) = tr.
Proof. induction tr as [|e tr IH]; [done|]. simpl. by rewrite IH. Qed.

Lemma for_devices_cons (m : M unit) (i : nat) (d : ZKTecoDevice)
    (rest : list ZKTecoDevice) (w : Shared) :
  for_devices m i (d :: rest) w =
  let run := m (mkState d (store_file w) (clock w) []) in
  let w' := mkShared (file run.2) (tick run.2)
                     (events w ++ map (DeviceDid i) (trace run.2)) in
  match run.1 with
  | Ret _ =>
      let next := for_devices m (S i) rest w' in
      (next.1, (self run.2 :: next.2.1, next.2.2))
  | Raise e => (Raise e, (self run.2 :: rest, w'))
  end.
Proof. done. Qed.

(** [device.connect()] on a device, its result dropped. *)
Lemma connect_on_device (d : ZKTecoDevice) (f : FileState) (n : nat) :
  (connect;; mret tt) (mkState d f n []) =
  (Ret tt,
   mkState (after_connect (zk_connect n (ip d)) d) f (S n)
     [EConnect (zk_connect n (ip d));
      match zk_connect n (ip d) with
      | Some _ => ELog INFO (ConnectedTo (name d) (ip d))
      | None => ELog ERROR (ConnectionError (name d))
      end]).
Proof. rewrite bind_run, connect_run. simpl. by destruct (zk_connect n (ip d)). Qed.

(** The loop that connects the devices, from position [i] on. *)
Lemma for_devices_connect (i : nat) (ds : list ZKTecoDevice) (w : Shared) :
  let run := for_devices (connect;; mret tt) i ds w in
  run.1 = Ret tt ∧
  run.2.1 = imap (λ j d, after_connect (zk_connect (clock w + j) (ip d)) d) ds ∧
  store_file run.2.2 = store_file w ∧
  clock run.2.2 = clock w + length ds ∧
  ∃ evs, events run.2.2 = events w ++ evs ∧
         connects (device_effects evs) = imap (λ j d, zk_connect (clock w + j) (ip d)) ds ∧
         closes (device_effects evs) = [] ∧
         posts (device_effects evs) = [].
Proof.
  revert i w. induction ds as [|d ds IH]; intros i w; cbv zeta.
  - simpl. split; [done|]. split; [done|]. split; [done|]. split; [lia|].
    exists []. by rewrite app_nil_r.
  - rewrite for_devices_cons, connect_on_device. cbv zeta. simpl.
    set (r := zk_connect (clock w) (ip d)).
    set (w' := mkShared (store_file w) (S (clock w)) _).
    destruct (IH (S i) w') as (Hret & Hds & Hfile & Hclock & evs & Hevs & Hco & Hcl & Hpo).
    subst w'. simpl in Hds, Hfile, Hclock, Hevs, Hco.
    assert (zk_connect (clock w + 0) (ip d) = r) as Hr0 by (by rewrite Nat.add_0_r).
    assert (∀ j, clock w + S j = S (clock w + j)) as Hj by lia.
    split; [done|]. split.
    { rewrite Hds, Hr0. f_equal. apply imap_ext. intros j x _. simpl. by rewrite Hj. }
    split; [done|]. split; [rewrite Hclock; lia|].
    exists (map (DeviceDid i)
              [EConnect r;
               match r with
               | Some _ => ELog INFO (ConnectedTo (name d) (ip d))
               | None => ELog ERROR (ConnectionError (name d))
               end] ++ evs).
    rewrite Hevs, <- app_assoc. split; [done|].
    rewrite device_effects_app, device_effects_map, connects_app, closes_app, posts_app.
    rewrite Hco, Hcl, Hpo, Hr0.
    assert (imap (λ j x, zk_connect (S (clock w + j)) (ip x)) ds =
            imap ((λ j x, zk_connect (clock w + j) (ip x)) ∘ S) ds) as ->.
    { apply imap_ext. intros j x _. simpl. by rewrite Hj. }
    by destruct r.
Qed.

(** X10: at start-up every device of the configuration is built and
    connected exactly once, in the order of the file; a device that cannot be
    reached is marked Connection Failed and the next ones are still tried;
    nothing is sent and the store file is not touched.  When the
    configuration cannot be read there is one error line and no device. *)
Theorem startup_connects_each_device_once (c : ConfigFile) (w : Shared) :
  let devices := (load_devices c).1 in
  let run := startup c w in
  run.1 = Ret tt ∧
  run.2.1 = imap (λ j d, after_connect (zk_connect (clock w + j) (cfg_ip d)) (init d)) devices ∧
  store_file run.2.2 = store_file w ∧
  clock run.2.2 = clock w + length devices ∧
  (∃ evs, events run.2.2 = events w ++ (load_devices c).2 ++ evs ∧
          connects (device_effects evs)
            = imap (λ j d, zk_connect (clock w + j) (cfg_ip d)) devices ∧
          posts (device_effects evs) = []) ∧
  (c = NoConfig ∨ c = BadConfig →
   run.2 = ([], notice (SupLog LoadDevicesError) w)).
Proof.
  cbv zeta. unfold startup.
  set (w' := mkShared (store_file w) (clock w) (events w ++ (load_devices c).2)).
  destruct (for_devices_connect 0 (map init (load_devices c).1) w')
    as (Hret & Hds & Hfile & Hclock & evs & Hevs & Hco & _ & Hpo).
  cbv zeta in *. split; [done|]. split.
  { rewrite Hds. change (map init) with (fmap (M := list) init). by rewrite imap_fmap. }
  split; [done|]. split; [by rewrite Hclock, length_map|]. split.
  - exists evs. rewrite Hevs. simpl. rewrite <- app_assoc. split; [done|]. split; [|done].
    rewrite Hco. change (map init) with (fmap (M := list) init). by rewrite imap_fmap.
  - by intros [-> | ->].
Qed.

(** ** The hourly sweep of every device *)








(** ** Shutdown *)

Lemma for_devices_app (m : M unit) (i : nat) (pre post : list ZKTecoDevice) (w : Shared) :
  for_devices m i (pre ++ post) w =
  match for_devices m i pre w with
  | (Ret _, (pre', w1)) =>
      let next := for_devices m (i + length pre) post w1 in
      (next.1, (pre' ++ next.2.1, next.2.2))
  | (Raise e, (pre', w1)) => (Raise e, (pre' ++ post, w1))
  end.
Proof.
  revert i w. induction pre as [|d pre IH]; intros i w.
  - simpl. rewrite Nat.add_0_r. by destruct (for_devices m i post w) as [? [? ?]].
  - rewrite <- app_comm_cons, !for_devices_cons. cbv zeta.
    destruct (m _) as [[[]|e] σ1]; simpl; [|done].
    rewrite IH. replace (S i + length pre) with (i + S (length pre)) by lia.
    by destruct (for_devices m (S i) pre _) as [[[]|e] [pre' w1]].
Qed.

(** [device.disconnect()] on a device whose driver call returns. *)
Lemma disconnect_on_device (d : ZKTecoDevice) (f : FileState) (n : nat) :
  (∀ c, conn d = Some c → zk_disconnect n c = true) →
  disconnect (mkState d f n []) =
  (Ret tt,
   mkState (after_disconnect d) f match conn d with Some _ => S n | None => n end
     match conn d with
     | Some c => [EDisconnect c true; ELog INFO (DisconnectedFrom (name d))]
     | None => []
     end).
Proof.
  intros Hok. rewrite disconnect_run. unfold after_disconnect. simpl.
  destruct (conn d) as [c|]; [|done]. by rewrite (Hok c).
Qed.

(** The loop of the disconnects when the driver never raises. *)
Lemma for_devices_disconnect (i : nat) (ds : list ZKTecoDevice) (w : Shared) :
  (∀ n c, zk_disconnect n c = true) →
  let run := for_devices disconnect i ds w in
  run.1 = Ret tt ∧
  run.2.1 = after_disconnect <$> ds ∧
  store_file run.2.2 = store_file w ∧
  ∃ evs, events run.2.2 = events w ++ evs ∧
         closes (device_effects evs) = omap conn ds ∧
         connects (device_effects evs) = [] ∧
         posts (device_effects evs) = [] ∧
         writes (device_effects evs) = [].
Proof.
  intros Hok. revert i w. induction ds as [|d ds IH]; intros i w; cbv zeta.
  - simpl. repeat (split; [done|]). exists []. by rewrite app_nil_r.
  - rewrite for_devices_cons, disconnect_on_device by (intros; apply Hok).
    cbv zeta. simpl.
    set (w' := mkShared _ _ _).
    destruct (IH (S i) w') as (Hret & Hds & Hfile & evs & Hevs & Hcl & Hco & Hpo & Hwr).
    subst w'. simpl in Hfile, Hevs.
    split; [done|]. split; [by rewrite Hds|]. split; [done|].
    eexists (map (DeviceDid i) _ ++ evs). rewrite Hevs, <- app_assoc. split; [done|].
    rewrite device_effects_app, device_effects_map, closes_app, connects_app,
      posts_app, writes_app, Hcl, Hco, Hpo, Hwr.
    by destruct (conn d).
Qed.

(** X12: when the driver's [disconnect] never raises, the shutdown handler
    logs one line, calls [disconnect] once on the session object of every
    device that holds one, in the order of [active_devices], marks those
    devices Disconnected and leaves the others as they were, sends and
    writes nothing, and ends with [sys.exit(0)]. *)
Theorem shutdown_closes_every_session (active_devices : list ZKTecoDevice) (w : Shared) :
  (∀ n c, zk_disconnect n c = true) →
  (graceful_shutdown active_devices w).1 = Ret tt ∧
  (graceful_shutdown active_devices w).2.1 = after_disconnect <$> active_devices ∧
  store_file (graceful_shutdown active_devices w).2.2 = store_file w ∧
  ∃ evs, events (graceful_shutdown active_devices w).2.2
           = events w ++ SupLog ShuttingDown :: evs ++ [SysExit 0] ∧
         closes (device_effects evs) = omap conn active_devices ∧
         connects (device_effects evs) = [] ∧
         posts (device_effects evs) = [] ∧
         writes (device_effects evs) = [].
Proof.
  intros Hok. unfold graceful_shutdown. cbv zeta.
  destruct (for_devices_disconnect 0 active_devices (notice (SupLog ShuttingDown) w) Hok)
    as (Hret & Hds & Hfile & evs & Hevs & Hrest).
  rewrite Hret. simpl. split; [done|]. split; [done|]. split; [done|].
  exists evs. split; [|done]. rewrite Hevs. simpl. by rewrite <- !app_assoc.
Qed.

(** X13: the handler has no [try]: when the driver's [disconnect] raises
    for a device, the exception leaves the handler at once.  That device
    keeps its status and its session object, the devices after it in
    [active_devices] are not disconnected, and [sys.exit] is not reached. *)
Theorem shutdown_stops_at_first_driver_fault (pre rest : list ZKTecoDevice)
    (d : ZKTecoDevice) (c : Session) (w : Shared)
    (pre' : list ZKTecoDevice) (w1 : Shared) :
  for_devices disconnect 0 pre (notice (SupLog ShuttingDown) w) = (Ret tt, (pre', w1)) →
  conn d = Some c →
  zk_disconnect (clock w1) c = false →
  graceful_shutdown (pre ++ d :: rest) w =
  (Raise DriverError,
   (pre' ++ d :: rest,
    mkShared (store_file w1) (S (clock w1))
             (events w1 ++ [DeviceDid (length pre) (EDisconnect c false)]))).
Proof.
  intros Hpre Hc Hd. unfold graceful_shutdown. cbv zeta.
  rewrite for_devices_app, Hpre. cbv zeta.
  rewrite for_devices_cons, disconnect_run. simpl. rewrite Hc, Hd. done.
Qed.

(** ** A batch that is cut short *)

Lemma for_logs_app (pre post : list (Raw Attendance)) (b : bool) (σ : State) :
  for_logs (pre ++ post) b σ =
  match for_logs pre b σ with
  | (Ret b', σ1) => for_logs post b' σ1
  | (Raise e, σ1) => (Raise e, σ1)
  end.
Proof.
  revert b σ. induction pre as [|item pre IH]; intros b σ; [done|].
  rewrite <- app_comm_cons, !for_logs_cons. destruct item as [|a|repr]; [apply IH| |].
  - destruct (handle_log (RAttendance a) σ) as [[[]|e] σ1]; [apply IH|done].
  - destruct (handle_log (ROther repr) σ) as [[[]|e] σ1]; [apply IH|done].
Qed.

(** X14: an [Attendance] whose fields cannot be read for the request (its
    [timestamp] has no [strftime]) raises inside [send_log_to_api], outside
    of what its [except] catches.  The exception leaves the [for] loop: the
    object is in [device_logs] and nowhere else, and the objects after it in
    the batch are neither sent, nor stored, nor logged. *)
Theorem unreadable_punch_ends_the_batch (pre rest : list (Raw Attendance))
    (a : Attendance) (b b' : bool) (σ σ1 : State) :
  for_logs pre b σ = (Ret b', σ1) →
  api_fields a = None →
  for_logs (pre ++ RAttendance a :: rest) b σ =
  (Raise AttributeError,
   mkState (set_device_logs (<[datetime_now (tick σ1) := a]> (device_logs (self σ1))) (self σ1))
           (file σ1) (S (tick σ1)) (trace σ1)).
Proof.
  intros Hpre Ha. rewrite for_logs_app, Hpre, for_logs_cons, handle_log_attendance.
  cbv zeta. by rewrite send_log_to_api_run, Ha.
Qed.

(** ** The index of recent logs *)

Lemma send_log_to_api_self (a : Attendance) (σ : State) :
  self (send_log_to_api a σ).2 = self σ.
Proof. rewrite send_log_to_api_run. by destruct (api_fields a) as [[[u t] s]|]. Qed.

(** X15: [device_logs] is written by the capture loop only.  An
    [Attendance] is put there under the time of its capture before it is
    sent, and stays there whether the request is accepted, refused or
    raises, and whether the record can be stored or not; an entry of the
    same second is replaced.  [connect], [disconnect], [send_log_to_api],
    [store_failed_log] and the sweep leave the index as it is. *)
Theorem device_logs_written_at_capture_only (a : Attendance) (m : Method) (σ : State) :
  device_logs (self (handle_log (RAttendance a) σ).2)
    = <[datetime_now (tick σ) := a]> (device_logs (self σ)) ∧
  ((∀ passes, m ≠ GetLiveLogs passes) →
   device_logs (self (call m σ).2) = device_logs (self σ)).
Proof.
  split.
  - rewrite handle_log_attendance. cbv zeta.
    set (σa := mkState _ (file σ) (S (tick σ)) (trace σ)).
    pose proof (send_log_to_api_self a σa) as Hs.
    destruct (send_log_to_api a σa) as [[[|]|e] σb]; simpl in Hs.
    + cbn [snd]. by rewrite Hs.
    + destruct (store_failed_log_self (datetime_now (tick σ)) a σb) as [-> _].
      by rewrite Hs.
    + cbn [snd]. by rewrite Hs.
  - intros Hm. destruct m as [|n|a'|t a'| |]; simpl.
    + rewrite bind_run, connect_run. by destruct (zk_connect _ _).
    + by destruct (Hm n).
    + rewrite bind_run. pose proof (send_log_to_api_self a' σ) as Hs.
      destruct (send_log_to_api a' σ) as [[ok|e] σ1]; simpl in *; by rewrite Hs.
    + by destruct (store_failed_log_self t a' σ) as [-> _].
    + by rewrite process_failed_logs_self.
    + rewrite disconnect_run. destruct (conn (self σ)) as [c|]; [|done].
      by destruct (zk_disconnect _ _).
Qed.

(** ** A terminal that cannot be reached *)

(** X16: while the terminal cannot be reached, every pass of the capture
    loop makes one [connect] attempt, logs the error and sleeps 10 seconds,
    and does nothing else: no capture, no request, no write, and no limit on
    the number of attempts. *)
Theorem unreachable_terminal_is_retried_every_pass (n : nat) (σ : State) :
  conn (self σ) = None →
  (∀ k, zk_connect k (ip (self σ)) = None) →
  get_live_logs n σ =
  (Ret tt,
   mkState (match n with 0 => self σ | S _ => set_status "Connection Failed" (self σ) end)
           (file σ) (tick σ + n)
           (trace σ ++ mjoin (replicate n [EConnect None;
                                           ELog ERROR (ConnectionError (name (self σ)));
                                           ESleep 10]))).
Proof.
  revert σ. induction n as [|n IH]; intros σ Hc Hdown.
  - simpl. rewrite Nat.add_0_r, app_nil_r. by destruct σ.
  - cbn [get_live_logs]. rewrite bind_run. unfold capture_pass at 1, try_except.
    rewrite (capture_body_unconnected σ Hc), connect_run, Hdown.
    unfold sleep, emit. simpl.
    rewrite IH; [|done|done]. simpl. f_equal.
    rewrite <- !app_assoc. simpl.
    replace (tick σ + S n) with (S (tick σ + n)) by lia.
    by destruct n.
Qed.

End FurtherProperties.

(** ** Scenarios of the further properties *)

Section LabMore.
#[local] Existing Instance lab.

Lemma batch_requests_in_order_witness :
  (∀ a, RAttendance a ∈ mixed_batch → is_Some (api_fields a)) ∧
  (for_logs mixed_batch false lab_connected).1 = Ret (false || captures mixed_batch) ∧
  ∃ ps, posts (trace (for_logs mixed_batch false lab_connected).2)
          = posts (trace lab_connected) ++ ps ∧
        ps.*1 = batch_payloads (self lab_connected) mixed_batch.
Proof.
  assert (∀ a, RAttendance a ∈ mixed_batch → is_Some (api_fields a)) as H.
  { intros a Ha. unfold mixed_batch in Ha.
    repeat (apply elem_of_cons in Ha as [Ha|Ha]; [by simplify_eq|]).
    by apply elem_of_nil in Ha. }
  split; [exact H|].
  apply (batch_requests_in_order (Ext := lab) mixed_batch false lab_connected H).
Defined.

Lemma unreadable_punch_ends_the_batch_witness :
  for_logs [RAttendance punch7] false lab_connected = (Ret true, lab_after_punch7) ∧
  api_fields P8 = None ∧
  for_logs ([RAttendance punch7] ++ RAttendance P8 :: [RAttendance punch9]) false lab_connected =
  (Raise AttributeError,
   mkState (set_device_logs (<[datetime_now (tick lab_after_punch7) := P8]>
                               (device_logs (self lab_after_punch7)))
                            (self lab_after_punch7))
           (file lab_after_punch7) (S (tick lab_after_punch7)) (trace lab_after_punch7)).
Proof.
  split; [reflexivity|]. split; [reflexivity|].
  apply (unreadable_punch_ends_the_batch (Ext := lab) [RAttendance punch7]
           [RAttendance punch9] P8 false true lab_connected lab_after_punch7);
    reflexivity.
Defined.

Lemma no_method_leaves_an_empty_list_witness :
  no_empty_list (file lab_pending) ∧
  no_empty_list (file (call ProcessFailedLogs lab_pending).2).
Proof.
  assert (no_empty_list (file lab_pending)) as H.
  { intros s key logs [= <-] Hkey. unfold lab_store, two_pending in Hkey.
    apply lookup_insert_Some in Hkey as [[_ <-]|[_ Hkey]]; [done|].
    apply lookup_singleton_Some in Hkey as [_ <-]. done. }
  split; [exact H|].
  apply (no_method_leaves_an_empty_list (Ext := lab) ProcessFailedLogs lab_pending H).
Defined.

Lemma idle_sweep_is_noop_witness :
  no_empty_list (file lab_other_key) ∧
  (file lab_other_key = Absent ∨ ∃ s, file lab_other_key = Snapshot s) ∧
  pending (file lab_other_key) (ip (self lab_other_key)) = [] ∧
  process_failed_logs lab_other_key = (Ret tt, lab_other_key).
Proof.
  assert (no_empty_list (file lab_other_key)) as H.
  { intros s key logs [= <-] Hkey.
    apply lookup_singleton_Some in Hkey as [_ <-]. done. }
  assert (file lab_other_key = Absent ∨ ∃ s, file lab_other_key = Snapshot s) as Hf.
  { right. eexists. reflexivity. }
  split; [exact H|]. split; [exact Hf|]. split; [reflexivity|].
  apply (idle_sweep_is_noop (Ext := lab) lab_other_key H Hf). reflexivity.
Defined.

Lemma bad_store_file_is_never_repaired_witness :
  (file lab_malformed = Malformed ∨ file lab_malformed = Unreadable) ∧
  file (call (GetLiveLogs 2) lab_malformed).2 = file lab_malformed ∧
  ∀ (t : string) (a : Attendance),
    ∃ e, store_failed_log t a lab_malformed =
           (Ret tt, mkState (self lab_malformed) (file lab_malformed) (tick lab_malformed)
                      (trace lab_malformed ++ [ELog ERROR (StoreFailed e)])).
Proof.
  assert (file lab_malformed = Malformed ∨ file lab_malformed = Unreadable) as H.
  { left. reflexivity. }
  split; [exact H|].
  apply (bad_store_file_is_never_repaired (Ext := lab) (GetLiveLogs 2) lab_malformed H).
Defined.

Lemma shutdown_closes_every_session_witness :
  (∀ n c, zk_disconnect n c = true) ∧
  (graceful_shutdown fleet (fresh 0)).1 = Ret tt ∧
  (graceful_shutdown fleet (fresh 0)).2.1 = after_disconnect <$> fleet ∧
  store_file (graceful_shutdown fleet (fresh 0)).2.2 = store_file (fresh 0) ∧
  ∃ evs, events (graceful_shutdown fleet (fresh 0)).2.2
           = events (fresh 0) ++ SupLog ShuttingDown :: evs ++ [SysExit 0] ∧
         closes (device_effects evs) = omap conn fleet ∧
         connects (device_effects evs) = [] ∧
         posts (device_effects evs) = [] ∧
         writes (device_effects evs) = [].
Proof.
  assert (∀ (n : nat) (c : Session), zk_disconnect n c = true) as H.
  { intros n c. reflexivity. }
  split; [exact H|].
  apply (shutdown_closes_every_session (Ext := lab) fleet (fresh 0) H).
Defined.

End LabMore.

Section Refusing.
#[local] Existing Instance refusing.

Lemma capture_loop_never_stores_witness :
  (∀ a, is_Some (api_fields a) → dict_json a = None) ∧
  (file (get_live_logs 1 refusing_start).2 = file refusing_start ∨
   file (get_live_logs 1 refusing_start).2 = Malformed) ∧
  ∀ key, pending (file (get_live_logs 1 refusing_start).2) key
         `sublist_of` pending (file refusing_start) key.
Proof.
  assert (∀ a, is_Some (api_fields a) → dict_json a = None) as H.
  { intros a [x Hx]. simpl in *. by destruct (punch_time a). }
  split; [exact H|].
  apply (capture_loop_never_stores (Ext := refusing) 1 refusing_start H).
Defined.

(** In that scenario the first refused punch truncates the file, the
    second finds it undecodable, and the record of D2 is lost. *)
Example refused_batch_loses_the_store :
  posts (trace (get_live_logs 1 refusing_start).2) =
    [(mkPayload 1 "7" "2024-01-01 09:00:00" 1, Response 500 "Server Error");
     (mkPayload 1 "8" "2024-01-01 09:05:00" 1, Response 500 "Server Error")] ∧
  writes (trace (get_live_logs 1 refusing_start).2) = [None] ∧
  file (get_live_logs 1 refusing_start).2 = Malformed ∧
  pending (file refusing_start) "192.168.1.202"
    = [mkFailed "2024-01-01 08:00:00" (as_text punch8)] ∧
  pending (file (get_live_logs 1 refusing_start).2) "192.168.1.202" = [].
Proof. repeat split; reflexivity. Qed.

End Refusing.

Section FieldMore.
#[local] Existing Instance field.

Lemma aborted_sweep_keeps_every_record_witness :
  file field_pending = Snapshot field_store ∧
  field_store !! ip (self field_pending) = Some ([] ++ field_first :: [field_second]) ∧
  retries field_pending [] [] field_pending ∧
  retry field_first field_pending = (Raise AttributeError, field_pending) ∧
  process_failed_logs field_pending =
    (Ret tt, mkState (self field_pending) (file field_pending) (tick field_pending)
               (trace field_pending ++ [ELog ERROR (ProcessingError AttributeError)])) ∧
  pending (file (process_failed_logs field_pending).2) (ip (self field_pending))
    = [] ++ field_first :: [field_second] ∧
  writes (trace (process_failed_logs field_pending).2) = writes (trace field_pending) ∧
  ∃ ps, posts (trace (process_failed_logs field_pending).2)
          = posts (trace field_pending) ++ ps ∧
        Forall2 (λ r pr, payload_of (self field_pending) r = Some pr.1) [] ps ∧
        Forall2 (λ b pr, b = accepted pr.2) [] ps.
Proof.
  split; [reflexivity|]. split; [reflexivity|]. split; [apply retries_nil|].
  split; [reflexivity|].
  apply (aborted_sweep_keeps_every_record (Ext := field) field_pending field_pending
           field_pending field_store [] [field_second] field_first [] AttributeError);
    [reflexivity|reflexivity|apply retries_nil|reflexivity].
Defined.

End FieldMore.

Section StrictMore.
#[local] Existing Instance strict_driver.

Lemma shutdown_stops_at_first_driver_fault_witness :
  let d1 := after_connect (Some 1) (init D1_data) in
  let d3 := after_connect (Some 1) (init D3_data) in
  let w1 := mkShared Absent 2
              [SupLog ShuttingDown; DeviceDid 0 (EDisconnect 1 true);
               DeviceDid 0 (ELog INFO (DisconnectedFrom "D1"))] in
  for_devices disconnect 0 [d1; init D2_data] (notice (SupLog ShuttingDown) (fresh 1))
    = (Ret tt, ([after_disconnect d1; init D2_data], w1)) ∧
  conn d3 = Some 1 ∧
  zk_disconnect (clock w1) 1 = false ∧
  graceful_shutdown fleet (fresh 1) =
  (Raise DriverError,
   ([after_disconnect d1; init D2_data] ++ d3 :: [],
    mkShared (store_file w1) (S (clock w1))
             (events w1 ++ [DeviceDid 2 (EDisconnect 1 false)]))).
Proof.
  cbv zeta.
  split; [reflexivity|]. split; [reflexivity|]. split; [reflexivity|].
  apply (shutdown_stops_at_first_driver_fault (Ext := strict_driver)
           [after_connect (Some 1) (init D1_data); init D2_data] []
           (after_connect (Some 1) (init D3_data)) 1 (fresh 1));
    reflexivity.
Defined.

End StrictMore.

Section Unplugged.
#[local] Existing Instance unplugged.

Lemma unreachable_terminal_is_retried_every_pass_witness :
  conn (self unplugged_start) = None ∧
  (∀ k, zk_connect k (ip (self unplugged_start)) = None) ∧
  get_live_logs 3 unplugged_start =
  (Ret tt,
   mkState (set_status "Connection Failed" (self unplugged_start))
           (file unplugged_start) (tick unplugged_start + 3)
           (trace unplugged_start ++
            mjoin (replicate 3 [EConnect None;
                                ELog ERROR (ConnectionError (name (self unplugged_start)));
                                ESleep 10]))).
Proof.
  assert (∀ k, zk_connect k (ip (self unplugged_start)) = None) as H.
  { intros k. reflexivity. }
  split; [reflexivity|]. split; [exact H|].
  apply (unreachable_terminal_is_retried_every_pass (Ext := unplugged) 3 unplugged_start);
    [reflexivity|exact H].
Defined.

End Unplugged.
